(** * The notification engine of CropYieldAI (notification-service.ts)

    A shallow embedding of the [NotificationService] class: the notification
    records, the per-channel delivery dispatcher, the bounded in-memory store
    with its query and mutation API, the analytics aggregator and the price
    alert normalizer, followed by the properties the specification states
    about them.

    JavaScript objects and arrays are reference values.  The service keeps
    one array of notification objects and hands arrays of the same objects to
    its callers, so the embedding has two heaps: one of arrays (lists of
    object references) and one of notification objects.  A JS [number] is an
    IEEE 754 binary64 value and is embedded as a primitive float wherever the
    source computes with fractions; lengths and counts are natural numbers,
    instants ([Date]) are integers (milliseconds since the epoch), and a
    method that reads the clock takes the reading as an argument.

    The [async] methods embedded here await no timer and no I/O, only each
    other, so their continuations run as microtasks and a call runs to its
    end before any other task (a timer tick, a UI event) calls the service:
    every method is a function from the state before the call to the state
    after it (with the value returned, when there is one). *)

From Stdlib Require Import ZArith Floats.
From stdpp Require Import base option list gmap strings pretty.

Local Open Scope string_scope.

(** ** Data model *)

Inductive NotificationType :=
  | Weather | Price | Seasonal | Government | Disease | Irrigation | General.

Inductive Category := Alert | Warning | Info | Tip | Update.

Inductive Priority := Low | Medium | High | Critical.

Inductive Channel := Push | Sms | Email | InApp.

(** The browser's [NotificationPermission]. *)
Inductive NotificationPermission := PermDefault | PermGranted | PermDenied.

(** The string a [type] or [category] is at run time: the filters of
    [getNotifications] compare them with [===] against caller strings. *)
Definition type_string (t : NotificationType) : string :=
  match t with
  | Weather => "weather" | Price => "price" | Seasonal => "seasonal"
  | Government => "government" | Disease => "disease"
  | Irrigation => "irrigation" | General => "general"
  end.

Definition category_string (c : Category) : string :=
  match c with
  | Alert => "alert" | Warning => "warning" | Info => "info"
  | Tip => "tip" | Update => "update"
  end.

Definition priority_string (p : Priority) : string :=
  match p with
  | Low => "low" | Medium => "medium" | High => "high" | Critical => "critical"
  end.

Inductive AlertTrigger :=
  | ThresholdReached | SuddenSpike | SuddenDrop | Volatility | TargetAchieved.

Module PriceAlert.
Record t := mk {
  id : string;
  commodity : string;
  variety : string;
  currentPrice : float;
  previousPrice : float;
  change : float;
  changePercentage : float;
  marketName : string;
  alertTrigger : AlertTrigger;
  recommendations : list string
}.
End PriceAlert.

Module DeliveryChannel.
Record t := mk {
  channel : Channel;
  enabled : bool;
  delivered : bool;
  deliveredAt : option Z;
  error : option string
}.
End DeliveryChannel.

(** [location] is never written by the engine and is left out; [data] holds
    the source event. *)
Module Notification.
Record t := mk {
  id : string;
  type : NotificationType;
  category : Category;
  priority : Priority;
  title : string;
  message : string;
  detailedMessage : option string;
  timestamp : Z;
  expiresAt : option Z;
  isRead : bool;
  actionRequired : bool;
  actionText : option string;
  actionUrl : option string;
  relatedCrop : option string;
  data : option PriceAlert.t;
  deliveryChannels : list DeliveryChannel.t
}.
End Notification.

(** What [new Notification(title, options)] puts on the screen. *)
Record PlatformNotification := {
  pn_title : string;
  pn_body : string;
  pn_tag : string;
  pn_requireInteraction : bool;
  pn_url : option string
}.

(** ** The service and the heaps it lives in

    [notifications] is the private field [this.notifications]: a reference to
    an array.  [arrays] and [objects] are the JS heaps.  [storedNotifications]
    is the decoded value of the localStorage item 'notifications';
    [storageWritable] says whether [localStorage.setItem] succeeds (it throws
    when the quota is exceeded or storage is disabled).  [displayed] is the
    log of platform notifications shown, and [constructorError] the message
    of the error [new Notification] throws on this platform, if it throws.
    The subscription and user-configuration tables, console output and the
    [newNotification] window event are not part of the embedding. *)
Record Service := {
  notifications : nat;
  notificationPermission : NotificationPermission;
  arrays : gmap nat (list nat);
  objects : gmap nat Notification.t;
  storedNotifications : option (list Notification.t);
  storageWritable : bool;
  displayed : list PlatformNotification;
  constructorError : option string
}.

Definition set_notifications (a : nat) (s : Service) : Service :=
  {| notifications := a;
     notificationPermission := notificationPermission s;
     arrays := arrays s; objects := objects s;
     storedNotifications := storedNotifications s;
     storageWritable := storageWritable s;
     displayed := displayed s; constructorError := constructorError s |}.

Definition set_arrays (m : gmap nat (list nat)) (s : Service) : Service :=
  {| notifications := notifications s;
     notificationPermission := notificationPermission s;
     arrays := m; objects := objects s;
     storedNotifications := storedNotifications s;
     storageWritable := storageWritable s;
     displayed := displayed s; constructorError := constructorError s |}.

Definition set_objects (m : gmap nat Notification.t) (s : Service) : Service :=
  {| notifications := notifications s;
     notificationPermission := notificationPermission s;
     arrays := arrays s; objects := m;
     storedNotifications := storedNotifications s;
     storageWritable := storageWritable s;
     displayed := displayed s; constructorError := constructorError s |}.

Definition set_storedNotifications (v : option (list Notification.t))
    (s : Service) : Service :=
  {| notifications := notifications s;
     notificationPermission := notificationPermission s;
     arrays := arrays s; objects := objects s;
     storedNotifications := v;
     storageWritable := storageWritable s;
     displayed := displayed s; constructorError := constructorError s |}.

Definition set_displayed (d : list PlatformNotification) (s : Service) : Service :=
  {| notifications := notifications s;
     notificationPermission := notificationPermission s;
     arrays := arrays s; objects := objects s;
     storedNotifications := storedNotifications s;
     storageWritable := storageWritable s;
     displayed := d; constructorError := constructorError s |}.

(** The elements of the array at reference [a], and of [this.notifications]. *)
Definition array_at (s : Service) (a : nat) : list nat :=
  default [] (arrays s !! a).

Definition refs (s : Service) : list nat := array_at s (notifications s).

(** A callback [n => p(n)] applied to the object a reference denotes. *)
Definition holds (s : Service) (p : Notification.t -> bool) (l : nat) : bool :=
  match objects s !! l with
  | Some n => p n
  | None => false
  end.

(** The records the store holds, most recent first. *)
Definition contents (s : Service) : list Notification.t :=
  omap (fun l => objects s !! l) (refs s).

(** Allocation of a new array (array literal, spread, [filter], [slice]) and
    of a new object (object literal). *)
Definition alloc_array (xs : list nat) (s : Service) : nat * Service :=
  let a := fresh (dom (arrays s)) in
  (a, set_arrays (<[a := xs]> (arrays s)) s).

Definition alloc_object (n : Notification.t) (s : Service) : nat * Service :=
  let l := fresh (dom (objects s)) in
  (l, set_objects (<[l := n]> (objects s)) s).

(** [arr.filter(p)] and [arr.slice(0, k)]: both build a new array. *)
Definition array_filter (p : Notification.t -> bool) (a : nat) (s : Service)
    : nat * Service :=
  alloc_array (List.filter (holds s p) (array_at s a)) s.

(** [slice(0, k)] for an integer [k]: a negative end counts from the back. *)
Definition slice0 (k : Z) (xs : list nat) : list nat :=
  if (k <? 0)%Z then take (Z.to_nat (Z.of_nat (length xs) + k)) xs
  else take (Z.to_nat k) xs.

Definition array_slice0 (k : Z) (a : nat) (s : Service) : nat * Service :=
  alloc_array (slice0 k (array_at s a)) s.

(** ** Notification delivery *)

Definition with_isRead (b : bool) (n : Notification.t) : Notification.t :=
  Notification.mk (Notification.id n) (Notification.type n)
    (Notification.category n) (Notification.priority n) (Notification.title n)
    (Notification.message n) (Notification.detailedMessage n)
    (Notification.timestamp n) (Notification.expiresAt n) b
    (Notification.actionRequired n) (Notification.actionText n)
    (Notification.actionUrl n) (Notification.relatedCrop n)
    (Notification.data n) (Notification.deliveryChannels n).

Definition with_deliveryChannels (cs : list DeliveryChannel.t)
    (n : Notification.t) : Notification.t :=
  Notification.mk (Notification.id n) (Notification.type n)
    (Notification.category n) (Notification.priority n) (Notification.title n)
    (Notification.message n) (Notification.detailedMessage n)
    (Notification.timestamp n) (Notification.expiresAt n) (Notification.isRead n)
    (Notification.actionRequired n) (Notification.actionText n)
    (Notification.actionUrl n) (Notification.relatedCrop n)
    (Notification.data n) cs.

(** [channel.delivered = true; channel.deliveredAt = new Date()] *)
Definition mark_delivered (now : Z) (c : DeliveryChannel.t) : DeliveryChannel.t :=
  DeliveryChannel.mk (DeliveryChannel.channel c) (DeliveryChannel.enabled c)
    true (Some now) (DeliveryChannel.error c).

(** [channel.error = error.message] *)
Definition mark_error (msg : string) (c : DeliveryChannel.t) : DeliveryChannel.t :=
  DeliveryChannel.mk (DeliveryChannel.channel c) (DeliveryChannel.enabled c)
    (DeliveryChannel.delivered c) (DeliveryChannel.deliveredAt c) (Some msg).

(** Assignment to a field of the [i]-th channel object of the notification
    object at [l]: the object is updated in place, for every holder of [l]. *)
Definition update_channel (l i : nat) (f : DeliveryChannel.t -> DeliveryChannel.t)
    (s : Service) : Service :=
  set_objects
    (alter (fun n => with_deliveryChannels
                       (alter f i (Notification.deliveryChannels n)) n)
           l (objects s)) s.

Definition channel_at (s : Service) (l i : nat) : option DeliveryChannel.t :=
  match objects s !! l with
  | Some n => Notification.deliveryChannels n !! i
  | None => None
  end.

(** How a call ends: it returns, or throws an [Error] with a message. *)
Inductive Completion :=
  | Returned (s : Service)
  | Threw (message : string) (s : Service).

Definition platform_notification (n : Notification.t) : PlatformNotification :=
  {| pn_title := Notification.title n;
     pn_body := Notification.message n;
     pn_tag := Notification.id n;
     pn_requireInteraction :=
       match Notification.priority n with Critical => true | _ => false end;
     pn_url := Notification.actionUrl n |}.

Definition sendPushNotification (n : Notification.t) (s : Service) : Completion :=
  match notificationPermission s with
  | PermGranted =>
      match constructorError s with
      | Some msg => Threw msg s
      | None => Returned (set_displayed (displayed s ++ [platform_notification n]) s)
      end
  | _ => Returned s
  end.

(** [deliverThroughChannel(notification, channel)], the channel being the
    [i]-th of the notification at [l]. *)
Definition deliverThroughChannel (l i : nat) (now : Z) (s : Service) : Service :=
  match objects s !! l with
  | None => s
  | Some n =>
      match Notification.deliveryChannels n !! i with
      | None => s
      | Some c =>
          let attempt :=
            match DeliveryChannel.channel c with
            | Push => sendPushNotification n s
            | InApp => Returned s
            | Sms => Returned s
            | Email => Returned s
            end in
          match attempt with
          | Returned s' => update_channel l i (mark_delivered now) s'
          | Threw msg s' => update_channel l i (mark_error msg) s'
          end
      end
  end.

(** The body of [for (const channel of notification.deliveryChannels)]. *)
Definition deliver_if_enabled (l : nat) (now : Z) (s : Service) (i : nat) : Service :=
  match channel_at s l i with
  | Some c => if DeliveryChannel.enabled c then deliverThroughChannel l i now s else s
  | None => s
  end.

Definition deliver_channels (l : nat) (now : Z) (s : Service) : Service :=
  match objects s !! l with
  | Some n =>
      fold_left (deliver_if_enabled l now)
                (seq 0 (length (Notification.deliveryChannels n))) s
  | None => s
  end.

(** [localStorage.setItem('notifications', JSON.stringify(
    this.notifications.slice(0, 50)))] inside try/catch. *)
Definition saveNotificationsToStorage (s : Service) : Service :=
  if storageWritable s
  then set_storedNotifications
         (Some (omap (fun l => objects s !! l) (take 50 (refs s)))) s
  else s.

(** [this.notifications.unshift(notification)]: in place. *)
Definition unshift (l : nat) (s : Service) : Service :=
  set_arrays (<[notifications s := l :: refs s]> (arrays s)) s.

(** [if (length > 100) this.notifications = this.notifications.slice(0, 100)] *)
Definition limit_size (s : Service) : Service :=
  if (100 <? length (refs s))%nat
  then let '(a, s') := array_slice0 100 (notifications s) s in
       set_notifications a s'
  else s.

Definition sendNotification (l : nat) (now : Z) (s : Service) : Service :=
  let s := unshift l s in
  let s := limit_size s in
  let s := deliver_channels l now s in
  saveNotificationsToStorage s.

(** ** Notification management *)

Record Filters := {
  f_type : option string;
  f_category : option string;
  f_isRead : option bool;
  f_limit : option Z
}.

(** Truthiness of an optional string and of an optional (integer) number. *)
Definition truthy_string (o : option string) : option string :=
  match o with
  | Some "" => None
  | _ => o
  end.

Definition truthy_number (o : option Z) : option Z :=
  match o with
  | Some 0%Z => None
  | _ => o
  end.

Definition getNotifications (userId : string) (filters : option Filters)
    (s : Service) : nat * Service :=
  let '(filtered, s) := alloc_array (refs s) s in
  let '(filtered, s) :=
    match truthy_string (filters ≫= f_type) with
    | Some ty =>
        array_filter (fun n => String.eqb (type_string (Notification.type n)) ty)
                     filtered s
    | None => (filtered, s)
    end in
  let '(filtered, s) :=
    match truthy_string (filters ≫= f_category) with
    | Some c =>
        array_filter
          (fun n => String.eqb (category_string (Notification.category n)) c)
          filtered s
    | None => (filtered, s)
    end in
  let '(filtered, s) :=
    match filters ≫= f_isRead with
    | Some b => array_filter (fun n => Bool.eqb (Notification.isRead n) b) filtered s
    | None => (filtered, s)
    end in
  let '(filtered, s) :=
    match truthy_number (filters ≫= f_limit) with
    | Some k => array_slice0 k filtered s
    | None => (filtered, s)
    end in
  (filtered, s).

(** [notification.isRead = true] on the object at [l]. *)
Definition mark_read (s : Service) (l : nat) : Service :=
  set_objects (alter (with_isRead true) l (objects s)) s.

Definition markAsRead (notificationId : string) (s : Service) : Service :=
  match List.find (holds s (fun n => String.eqb (Notification.id n) notificationId))
                  (refs s) with
  | Some l => saveNotificationsToStorage (mark_read s l)
  | None => s
  end.

Definition markAllAsRead (userId : string) (s : Service) : Service :=
  saveNotificationsToStorage (fold_left mark_read (refs s) s).

Definition deleteNotification (notificationId : string) (s : Service) : Service :=
  let '(a, s) :=
    array_filter (fun n => negb (String.eqb (Notification.id n) notificationId))
                 (notifications s) s in
  saveNotificationsToStorage (set_notifications a s).

Definition getUnreadCount (userId : string) (s : Service) : nat :=
  length (List.filter (holds s (fun n => negb (Notification.isRead n))) (refs s)).

(** [cleanup()]: [now] is the instant [new Date()] returns. *)
Definition cleanup (now : Z) (s : Service) : Service :=
  let '(a, s) :=
    array_filter
      (fun n => match Notification.expiresAt n with
                | None => true
                | Some e => (now <? e)%Z
                end)
      (notifications s) s in
  saveNotificationsToStorage (set_notifications a s).

(** ** Analytics *)

Inductive Timeframe := Day | Week | Month.

Record Tally := { sent : nat; delivered : nat; read : nat }.

Record NotificationAnalytics := {
  totalSent : nat;
  totalDelivered : nat;
  totalRead : nat;
  totalClicked : nat;
  deliveryRate : float;
  readRate : float;
  clickRate : float;
  byType : list (string * Tally);
  byPriority : list (string * Tally);
  mostEngagingType : string;
  bestTimeToSend : string;
  userPreferences : list (string * nat)
}.

(** A count as the JS number it is (exact below 2^53). *)
Definition number_of_nat (n : nat) : float :=
  PrimFloat.of_uint63 (Uint63.of_Z (Z.of_nat n)).

(** [n.deliveryChannels.some(c => c.delivered)] *)
Definition some_delivered (n : Notification.t) : bool :=
  existsb DeliveryChannel.delivered (Notification.deliveryChannels n).

Definition bool_to_nat (b : bool) : nat := if b then 1 else 0.

(** One step of the [reduce] that groups by a string key: the entry is
    created on first use and keys keep their insertion order. *)
Fixpoint tally_add (key : string) (n : Notification.t)
    (acc : list (string * Tally)) : list (string * Tally) :=
  match acc with
  | [] => [(key, {| sent := 1;
                    delivered := bool_to_nat (some_delivered n);
                    read := bool_to_nat (Notification.isRead n) |})]
  | (k, t) :: rest =>
      if String.eqb k key
      then (k, {| sent := S (sent t);
                  delivered := delivered t + bool_to_nat (some_delivered n);
                  read := read t + bool_to_nat (Notification.isRead n) |}) :: rest
      else (k, t) :: tally_add key n rest
  end.

Definition group_by (key : Notification.t -> string) (s : Service)
    (ls : list nat) : list (string * Tally) :=
  fold_left (fun acc l => match objects s !! l with
                          | Some n => tally_add (key n) n acc
                          | None => acc
                          end) ls [].

(** [byType[k]?.read || 0] *)
Definition read_of (groups : list (string * Tally)) (k : string) : nat :=
  match List.find (fun e => String.eqb (fst e) k) groups with
  | Some e => read (snd e)
  | None => 0
  end.

Section Analytics.

(** The instant [startDate] holds after the [switch]: the clock reading moved
    back one day, seven days or one month on the local calendar
    ([setDate], [setMonth]). *)
Variable startDate : Timeframe -> Z -> Z.

Definition relevantNotifications (timeframe : Timeframe) (now : Z) (s : Service)
    : list nat :=
  List.filter
    (holds s (fun n => (startDate timeframe now <=? Notification.timestamp n)%Z))
    (refs s).

Definition getNotificationAnalytics (userId : string) (timeframe : Timeframe)
    (now : Z) (s : Service) : NotificationAnalytics :=
  let relevant := relevantNotifications timeframe now s in
  let totalSent := length relevant in
  let totalDelivered := length (List.filter (holds s some_delivered) relevant) in
  let totalRead := length (List.filter (holds s Notification.isRead) relevant) in
  let byType := group_by (fun n => type_string (Notification.type n)) s relevant in
  let byPriority :=
    group_by (fun n => priority_string (Notification.priority n)) s relevant in
  {| totalSent := totalSent;
     totalDelivered := totalDelivered;
     totalRead := totalRead;
     totalClicked := 0;
     deliveryRate :=
       if (0 <? totalSent)%nat
       then (number_of_nat totalDelivered / number_of_nat totalSent * 100)%float
       else 0%float;
     readRate :=
       if (0 <? totalDelivered)%nat
       then (number_of_nat totalRead / number_of_nat totalDelivered * 100)%float
       else 0%float;
     clickRate := 0%float;
     byType := byType;
     byPriority := byPriority;
     mostEngagingType :=
       fold_left (fun a b => if (read_of byType b <? read_of byType a)%nat
                             then a else b)
                 (map fst byType) "weather";
     bestTimeToSend := "08:00";
     userPreferences :=
       [("weather", 85); ("price", 90); ("seasonal", 60); ("government", 70)]%nat
  |}.

End Analytics.

(** ** The price alert normalizer *)

Definition newline : string := String (Ascii.ascii_of_nat 10) "".

Section Normalizer.

(** Conversion of a number to a string in a template literal. *)
Variable numberToString : float -> string.

Definition price_notification (alert : PriceAlert.t) (now : Z) : Notification.t :=
  let isIncrease := (0 <? PriceAlert.change alert)%float in
  let changeText := if isIncrease then "increased" else "decreased" in
  let changeTEXT := if isIncrease then "INCREASED" else "DECREASED" in
  let emoji := if isIncrease then "📈" else "📉" in
  let cur := numberToString (PriceAlert.currentPrice alert) in
  {| Notification.id := "notif_" ++ PriceAlert.id alert;
     Notification.type := Price;
     Notification.category :=
       if (10 <? PrimFloat.abs (PriceAlert.changePercentage alert))%float
       then Alert else Info;
     Notification.priority :=
       if (15 <? PrimFloat.abs (PriceAlert.changePercentage alert))%float
       then High else Medium;
     Notification.title :=
       emoji ++ " " ++ PriceAlert.commodity alert ++ " Price " ++ changeTEXT;
     Notification.message :=
       PriceAlert.commodity alert ++ " price " ++ changeText ++ " by "
       ++ numberToString (PrimFloat.abs (PriceAlert.changePercentage alert))
       ++ "% to ₹" ++ cur;
     Notification.detailedMessage :=
       Some ("Market: " ++ PriceAlert.marketName alert ++ newline
             ++ "Current Price: ₹" ++ cur ++ newline
             ++ "Previous Price: ₹"
             ++ numberToString (PriceAlert.previousPrice alert) ++ newline
             ++ "Change: ₹" ++ numberToString (PriceAlert.change alert)
             ++ " (" ++ numberToString (PriceAlert.changePercentage alert)
             ++ "%)" ++ newline ++ newline ++ "Recommendations:" ++ newline
             ++ String.concat newline (PriceAlert.recommendations alert));
     Notification.timestamp := now;
     Notification.expiresAt := None;
     Notification.isRead := false;
     Notification.actionRequired := true;
     Notification.actionText := Some "View Markets";
     Notification.actionUrl := None;
     Notification.relatedCrop := Some (PriceAlert.commodity alert);
     Notification.data := Some alert;
     Notification.deliveryChannels :=
       [ DeliveryChannel.mk Push true false None None;
         DeliveryChannel.mk InApp true false None None ] |}.

Definition createNotificationFromPriceAlert (alert : PriceAlert.t) (now : Z)
    (s : Service) : Service :=
  let '(l, s) := alloc_object (price_notification alert now) s in
  sendNotification l now s.

End Normalizer.


(** ** Loading from storage *)


Section Storage.

(** What one stored record comes back as: the object [JSON.parse] makes of
    the text [JSON.stringify] made of the record, with the instants of
    [timestamp] and [expiresAt] rebuilt by [new Date] as in the [map] of the
    source.  (Texts, booleans and valid instants come back as they were; a
    number that is not finite, or the instant of a [deliveredAt], does not.) *)
Variable revive : Notification.t -> Notification.t.



End Storage.

(** ** Polling for price alerts *)

Section PricePolling.

Variable numberToString : float -> string.

(** [checkPriceChanges()], from the point where the simulated alerts have
    been generated: [polled] is the list [generateSimulatedPriceAlerts()]
    returned (it is random), each alert with the clock reading at the time
    its notification is created. *)
Definition checkPriceChanges (polled : list (PriceAlert.t * Z)) (s : Service)
    : Service :=
  fold_left (fun s p => createNotificationFromPriceAlert numberToString p.1 p.2 s)
            polled s.

End PricePolling.

(** ** Permission *)

Definition set_notificationPermission (p : NotificationPermission) (s : Service)
    : Service :=
  {| notifications := notifications s;
     notificationPermission := p;
     arrays := arrays s; objects := objects s;
     storedNotifications := storedNotifications s;
     storageWritable := storageWritable s;
     displayed := displayed s; constructorError := constructorError s |}.

(** [requestPermission()].  [supported] says whether ['Notification' in
    window]; [answer] is what [Notification.requestPermission()] resolves
    to, should it be called.  No other method writes the permission, so the
    wait for the answer is not modelled. *)
Definition requestPermission (supported : bool) (answer : NotificationPermission)
    (s : Service) : bool * Service :=
  if negb supported then (false, s)
  else
    match notificationPermission s with
    | PermGranted => (true, s)
    | _ =>
        (match answer with PermGranted => true | _ => false end,
         set_notificationPermission answer s)
    end.

(** ** User configuration *)

Inductive AlertFrequency := Immediate | Hourly | Daily | Weekly.

Module NotificationConfig.
Record preferences_t := mk_preferences {
  weatherAlerts : bool;
  priceAlerts : bool;
  seasonalTips : bool;
  governmentUpdates : bool;
  diseaseAlerts : bool;
  irrigationReminders : bool
}.
Record location_t := mk_location {
  latitude : float;
  longitude : float;
  state : string;
  district : string
}.
Record quietHours_t := mk_quietHours {
  enabled : bool;
  start : string;
  end_ : string
}.
Record t := mk {
  userId : string;
  preferences : preferences_t;
  location : location_t;
  crops : list string;
  priceThresholds : gmap string (float * float);
  alertFrequency : AlertFrequency;
  quietHours : quietHours_t
}.
End NotificationConfig.

(** The part of the service and of localStorage the configuration methods
    use: the map [this.userConfigs], and the stored items by key, each with
    the configuration its JSON text was made of.  [configWritable] says
    whether [localStorage.setItem] succeeds. *)
Record ConfigStore := {
  userConfigs : gmap string NotificationConfig.t;
  configItems : gmap string NotificationConfig.t;
  configWritable : bool
}.

Definition config_key (userId : string) : string := "notificationConfig_" ++ userId.

(** [updateUserConfig(config)]: the map is written first; [setItem] is not
    guarded, so when it throws the promise is rejected ([false]) with the
    map already changed. *)
Definition updateUserConfig (config : NotificationConfig.t) (c : ConfigStore)
    : bool * ConfigStore :=
  let configs := <[NotificationConfig.userId config := config]> (userConfigs c) in
  if configWritable c
  then (true,
        {| userConfigs := configs;
           configItems :=
             <[config_key (NotificationConfig.userId config) := config]> (configItems c);
           configWritable := configWritable c |})
  else (false,
        {| userConfigs := configs;
           configItems := configItems c;
           configWritable := configWritable c |}).

Section StoredConfig.

(** What [JSON.parse] makes of the text [JSON.stringify] made of a
    configuration. *)
Variable reviveConfig : NotificationConfig.t -> NotificationConfig.t.

(** [getUserConfig(userId)]: [None] is [null]. *)
Definition getUserConfig (userId : string) (c : ConfigStore)
    : option NotificationConfig.t * ConfigStore :=
  match userConfigs c !! userId with
  | Some config => (Some config, c)
  | None =>
      match configItems c !! config_key userId with
      | Some stored =>
          let config := reviveConfig stored in
          (Some config,
           {| userConfigs := <[userId := config]> (userConfigs c);
              configItems := configItems c;
              configWritable := configWritable c |})
      | None => (None, c)
      end
  end.

End StoredConfig.

(** ** Seasonal tips *)

Inductive Season := Spring | Summer | Monsoon | Winter.

Inductive TipCategory :=
  | Planting | TipIrrigation | Fertilization | PestControl | Harvesting | PostHarvest.

Inductive Importance := Optional | Recommended | VeryImportant.

Module SeasonalTip.
Record t := mk {
  id : string;
  season : Season;
  month : nat;
  week : nat;
  category : TipCategory;
  applicableCrops : list string;
  title : string;
  tip : string;
  timing : string;
  importance : Importance
}.
End SeasonalTip.

(** An entry of the [tips] arrays of [seasonalTipsDatabase]. *)
Record TipTemplate := {
  tt_category : TipCategory;
  tt_title : string;
  tt_tip : string;
  tt_timing : string;
  tt_importance : Importance;
  tt_applicableCrops : list string
}.

Record SeasonData := {
  sd_season : Season;
  sd_months : list nat;
  sd_tips : list TipTemplate
}.

Definition seasonalTipsDatabase : list SeasonData :=
  [ {| sd_season := Monsoon;
       sd_months := [6; 7; 8; 9];
       sd_tips :=
         [ {| tt_category := TipIrrigation;
              tt_title := "Monitor Rainfall and Drainage";
              tt_tip := "Ensure proper drainage in fields to prevent waterlogging during heavy rains";
              tt_timing := "During monsoon season";
              tt_importance := VeryImportant;
              tt_applicableCrops := ["Rice"; "Sugarcane"; "Cotton"] |};
           {| tt_category := PestControl;
              tt_title := "Pest Management in Humid Conditions";
              tt_tip := "Increase vigilance for pest attacks as humidity favors pest multiplication";
              tt_timing := "Weekly monitoring required";
              tt_importance := Recommended;
              tt_applicableCrops := ["Rice"; "Maize"; "Vegetables"] |} ] |};
    {| sd_season := Winter;
       sd_months := [12; 1; 2];
       sd_tips :=
         [ {| tt_category := Planting;
              tt_title := "Winter Crop Sowing";
              tt_tip := "Optimal time for sowing winter crops like wheat, mustard, and gram";
              tt_timing := "November-December";
              tt_importance := VeryImportant;
              tt_applicableCrops := ["Wheat"; "Mustard"; "Gram"] |} ] |} ].

(** [`tip_${month}_${week}_${index}`] *)
Definition tip_id (month week index : nat) : string :=
  "tip_" ++ pretty month ++ "_" ++ pretty week ++ "_" ++ pretty index.

(** The number literal [0.1]: the binary64 value nearest to one tenth. *)
Definition one_tenth : float := 0x1.999999999999ap-4%float.

(** The [forEach] over the tips of one season: [calls] counts the calls of
    [Math.random()] made so far, [random k] being the value of the [k]-th
    one. *)
Fixpoint season_tips (random : nat -> float) (sd : SeasonData) (month week : nat)
    (templates : list TipTemplate) (index : nat) (calls : nat)
    (tips : list SeasonalTip.t) : nat * list SeasonalTip.t :=
  match templates with
  | [] => (calls, tips)
  | tpl :: templates =>
      let tips :=
        if (random calls <? one_tenth)%float
        then (tips ++ [ SeasonalTip.mk (tip_id month week index) (sd_season sd)
                          month week (tt_category tpl) (tt_applicableCrops tpl)
                          (tt_title tpl) (tt_tip tpl) (tt_timing tpl)
                          (tt_importance tpl) ])%list
        else tips in
      season_tips random sd month week templates (S index) (S calls) tips
  end.

(** [generateSeasonalTips(date)], [month] being [date.getMonth() + 1] and
    [day] being [date.getDate()]; the week is [Math.ceil(day / 7)]. *)
Definition generateSeasonalTips (month day : nat) (random : nat -> float)
    : list SeasonalTip.t :=
  let week := (day + 6) / 7 in
  (fold_left
     (fun acc sd =>
        if existsb (Nat.eqb month) (sd_months sd)
        then season_tips random sd month week (sd_tips sd) 0 acc.1 acc.2
        else acc)
     seasonalTipsDatabase (0, [])).2.

(** ** Browser name *)

(** [text.includes(part)]: whether [part] occurs in [text]. *)
Definition includes (text part : string) : bool :=
  match String.index 0 part text with
  | Some _ => true
  | None => false
  end.

(** [getBrowserName()], of [navigator.userAgent]. *)
Definition getBrowserName (userAgent : string) : string :=
  if includes userAgent "Chrome" then "Chrome"
  else if includes userAgent "Firefox" then "Firefox"
  else if includes userAgent "Safari" then "Safari"
  else if includes userAgent "Edge" then "Edge"
  else "Unknown".
(** * Vocabulary of the properties *)

(** ** Delivery outcomes *)

(** What a delivery attempt leaves in the channel entry, as a function of the
    entry and of the platform state. *)
Definition attempt_outcome (s : Service) (now : Z) (c : DeliveryChannel.t)
    : DeliveryChannel.t :=
  match DeliveryChannel.channel c, notificationPermission s, constructorError s with
  | Push, PermGranted, Some msg => mark_error msg c
  | _, _, _ => mark_delivered now c
  end.

(** The same for one turn of the loop, which skips disabled channels. *)
Definition dispatch_outcome (s : Service) (now : Z) (c : DeliveryChannel.t)
    : DeliveryChannel.t :=
  if DeliveryChannel.enabled c then attempt_outcome s now c else c.

(** The parts of the state a delivery never writes. *)
Definition same_platform (s s' : Service) : Prop :=
  notifications s' = notifications s
  /\ arrays s' = arrays s
  /\ notificationPermission s' = notificationPermission s
  /\ constructorError s' = constructorError s
  /\ storedNotifications s' = storedNotifications s
  /\ storageWritable s' = storageWritable s.

(** The channel list while the loop runs: the first [k] entries have been
    dispatched, the others are as they were. *)
Definition dispatched (f : DeliveryChannel.t -> DeliveryChannel.t) (k : nat)
    (cs : list DeliveryChannel.t) : list DeliveryChannel.t :=
  map f (take k cs) ++ drop k cs.

(** ** Test fixtures *)

(** A notification as any of the normalizers builds it, up to its text. *)
Definition sample_notification (id : string) (expires : option Z) (isRead : bool)
    (channels : list DeliveryChannel.t) : Notification.t :=
  {| Notification.id := id;
     Notification.type := General;
     Notification.category := Info;
     Notification.priority := Medium;
     Notification.title := "title";
     Notification.message := "message";
     Notification.detailedMessage := None;
     Notification.timestamp := 1000;
     Notification.expiresAt := expires;
     Notification.isRead := isRead;
     Notification.actionRequired := false;
     Notification.actionText := None;
     Notification.actionUrl := None;
     Notification.relatedCrop := None;
     Notification.data := None;
     Notification.deliveryChannels := channels |}.

(** The channel entry of an object literal: [{ channel, enabled: true,
    delivered: false }]. *)
Definition new_channel (ch : Channel) : DeliveryChannel.t :=
  DeliveryChannel.mk ch true false None None.

(** The service right after construction, [held] being the objects of its
    notification array (at references 0, 1, ...). *)
Definition service_with (perm : NotificationPermission)
    (held : list Notification.t) (extra : list Notification.t) : Service :=
  {| notifications := 0;
     notificationPermission := perm;
     arrays := {[ 0 := seq 0 (length held) ]};
     objects := map_seq 0 (held ++ extra);
     storedNotifications := None;
     storageWritable := true;
     displayed := [];
     constructorError := None |}.

(** ** Sequences of calls, windows and rates *)

(** A sequence of [sendNotification] calls, each with the reference of its
    notification and the clock reading. *)
Definition send_all (calls : list (nat * Z)) (s : Service) : Service :=
  fold_left (fun s c => sendNotification c.1 c.2 s) calls s.

(** The notifications of the store inside the window, as records. *)
Definition window (startDate : Timeframe -> Z -> Z) (timeframe : Timeframe)
    (now : Z) (s : Service) : list Notification.t :=
  filter (fun n => (startDate timeframe now <= Notification.timestamp n)%Z)
         (contents s).

(** [part / whole * 100], and 0 when [whole] is 0. *)
Definition percentage (part whole : nat) : float :=
  if decide (whole = 0) then 0%float
  else (number_of_nat part / number_of_nat whole * 100)%float.

(** ** Queries and their results *)

(** [s'] is [s] with more arrays allocated and nothing else changed: what a
    read operation does to the state. *)
Definition extends (s s' : Service) : Prop :=
  objects s' = objects s
  /\ same_platform s (set_arrays (arrays s) s')
  /\ displayed s' = displayed s
  /\ forall a, a ∈ dom (arrays s) ->
       a ∈ dom (arrays s') /\ arrays s' !! a = arrays s !! a.

(** The result of a query step: a reference to an array that did not exist
    in the state [s0] the query started from, holding [xs]. *)
Definition query_result (s0 : Service) (xs : list nat) (r : nat * Service) : Prop :=
  extends s0 r.2 /\ (r.1 ∉ dom (arrays s0)) /\ arrays r.2 !! r.1 = Some xs.

(** The elements of the array [getNotifications] returns. *)
Definition query_refs (filters : option Filters) (s : Service) : list nat :=
  let r := refs s in
  let r := match truthy_string (filters ≫= f_type) with
           | Some ty =>
               List.filter
                 (holds s (fun n => String.eqb (type_string (Notification.type n)) ty)) r
           | None => r
           end in
  let r := match truthy_string (filters ≫= f_category) with
           | Some c =>
               List.filter
                 (holds s (fun n =>
                    String.eqb (category_string (Notification.category n)) c)) r
           | None => r
           end in
  let r := match filters ≫= f_isRead with
           | Some b => List.filter (holds s (fun n => Bool.eqb (Notification.isRead n) b)) r
           | None => r
           end in
  match truthy_number (filters ≫= f_limit) with
  | Some k => slice0 k r
  | None => r
  end.

(** ** Expiry, filters and identifiers *)

(** A notification is unexpired at [now] when it has no [expiresAt] or its
    [expiresAt] is strictly after [now]. *)
Definition unexpired (now : Z) (n : Notification.t) : Prop :=
  forall e, Notification.expiresAt n = Some e -> (now < e)%Z.

#[local] Instance unexpired_dec now n : Decision (unexpired now n).
Proof.
  unfold unexpired. destruct (Notification.expiresAt n) as [e|].
  - destruct (decide (now < e)%Z) as [H|H].
    + left. by intros ? [= <-].
    + right. intros H'. apply H. by apply H'.
  - left. by intros.
Defined.

(** The filter object [{}]. *)
Definition no_filters : Filters :=
  {| f_type := None; f_category := None; f_isRead := None; f_limit := None |}.

(** No record of the store has the identifier [id]. *)
Definition absent (id : string) (s : Service) : Prop :=
  Forall (fun n => Notification.id n <> id) (contents s).

(** Every reference of the store denotes an object (JS has no other). *)
Definition no_dangling (s : Service) : Prop :=
  Forall (fun l => is_Some (objects s !! l)) (refs s).

(** [{ ...f, limit: k }] and [{ isRead: b }]. *)
Definition with_limit (k : option Z) (f : Filters) : Filters :=
  {| f_type := f_type f; f_category := f_category f;
     f_isRead := f_isRead f; f_limit := k |}.

Definition only_isRead (b : bool) : Filters :=
  {| f_type := None; f_category := None; f_isRead := Some b; f_limit := None |}.

(** ** Callers and well-formed states *)

(** A caller's mutation of the array it received, or of a record in it:
    [ArrayWrite xs] is any in-place change of the array (push, pop, splice,
    assignment to an index or to [length]) after which it holds [xs];
    [RecordWrite i f] is an assignment to fields of the [i]-th element, [f]
    being its effect on the record. *)
Inductive CallerMutation :=
  | ArrayWrite (xs : list nat)
  | RecordWrite (i : nat) (f : Notification.t -> Notification.t).

Definition apply_mutation (a : nat) (m : CallerMutation) (s : Service) : Service :=
  match m with
  | ArrayWrite xs => set_arrays (<[a := xs]> (arrays s)) s
  | RecordWrite i f =>
      match array_at s a !! i with
      | Some l => set_objects (alter f l (objects s)) s
      | None => s
      end
  end.

(** The claim as the specification states it: after the query and any
    mutation of its result by the caller, the store holds the same records. *)
Definition query_isolated (userId : string) (filters : option Filters)
    (m : CallerMutation) (s : Service) : Prop :=
  let q := getNotifications userId filters s in
  contents (apply_mutation q.1 m q.2) = contents s.

(** [this.notifications] denotes an array. *)
Definition has_store (s : Service) : Prop :=
  is_Some (arrays s !! notifications s).

(** The states the service can be in. *)
Definition well_formed (s : Service) : Prop := has_store s /\ no_dangling s.

(** ** Platform notifications shown by a dispatch *)

(** The platform notifications one turn of the delivery loop shows for the
    entry [c] of the notification [n]. *)
Definition shown (s : Service) (n : Notification.t) (c : DeliveryChannel.t)
    : list PlatformNotification :=
  match DeliveryChannel.enabled c, DeliveryChannel.channel c,
        notificationPermission s, constructorError s with
  | true, Push, PermGranted, None => [platform_notification n]
  | _, _, _, _ => []
  end.

(** An enabled push entry. *)
Definition enabled_push (c : DeliveryChannel.t) : bool :=
  DeliveryChannel.enabled c
  && match DeliveryChannel.channel c with Push => true | _ => false end.

(** ** Storage *)

(** The service with another localStorage behind it: [stored] under the key
    'notifications', and writes accepted or refused as [writable] says. *)
Definition with_storage (stored : option (list Notification.t)) (writable : bool)
    (s : Service) : Service :=
  {| notifications := notifications s;
     notificationPermission := notificationPermission s;
     arrays := arrays s; objects := objects s;
     storedNotifications := stored;
     storageWritable := writable;
     displayed := displayed s; constructorError := constructorError s |}.

(** Everything of the service but its storage. *)
Definition memory (s : Service) : Service := with_storage None false s.

(** ** Queries, record by record *)

(** The records of the array a query returned. *)
Definition query_records (userId : string) (filters : option Filters)
    (s : Service) : list nat :=
  let q := getNotifications userId filters s in array_at q.2 q.1.

(** A record passes every filter that is given (an empty string counts as
    not given). *)
Definition matches (f : Filters) (n : Notification.t) : bool :=
  match truthy_string (f_type f) with
  | Some ty => String.eqb (type_string (Notification.type n)) ty
  | None => true
  end
  && match truthy_string (f_category f) with
     | Some c => String.eqb (category_string (Notification.category n)) c
     | None => true
     end
  && match f_isRead f with
     | Some b => Bool.eqb (Notification.isRead n) b
     | None => true
     end.

(** The first record with the identifier [id], if there is one, marked read. *)
Fixpoint mark_first (id : string) (ns : list Notification.t) : list Notification.t :=
  match ns with
  | [] => []
  | n :: ns =>
      if String.eqb (Notification.id n) id
      then with_isRead true n :: ns
      else n :: mark_first id ns
  end.

(** ** Price alerts in the store *)

(** The notification of a price alert as the store holds it after its
    dispatch on a platform in the state of [s]. *)
Definition dispatched_price_notification (numberToString : float -> string)
    (s : Service) (p : PriceAlert.t * Z) : Notification.t :=
  with_deliveryChannels
    [attempt_outcome s p.2 (new_channel Push); mark_delivered p.2 (new_channel InApp)]
    (price_notification numberToString p.1 p.2).

(** ** Groups of the analytics *)

(** The sum of one counter over the groups. *)
Definition total_of (f : Tally -> nat) (groups : list (string * Tally)) : nat :=
  sum_list_with (fun e => f e.2) groups.

(** A group counts at least one notification, and no more delivered or read
    ones than it counts notifications. *)
Definition tally_ok (t : Tally) : Prop :=
  0 < sent t /\ delivered t <= sent t /\ read t <= sent t.


(** ** Texts *)

(** [part] occurs somewhere in [text]. *)
Definition occurs (part text : string) : Prop :=
  exists pre post, text = pre ++ part ++ post.

(** ** Groups, record by record *)

(** The notifications among [w] whose grouping key is [k]. *)
Definition with_key (key : Notification.t -> string) (k : string)
    (w : list Notification.t) : list Notification.t :=
  List.filter (fun n => String.eqb (key n) k) w.

(** The counters of a list of notifications: how many there are, how many
    have some channel entry delivered, how many are read. *)
Definition tally_of (ns : list Notification.t) : Tally :=
  {| sent := length ns;
     delivered := length (List.filter some_delivered ns);
     read := length (List.filter Notification.isRead ns) |}.

(** The keys of a list without repetitions, each at the place of its first
    occurrence. *)
Fixpoint first_occurrences (ks : list string) : list string :=
  match ks with
  | [] => []
  | k :: ks => k :: List.filter (fun k' => negb (String.eqb k' k)) (first_occurrences ks)
  end.

(** A sample notification of a given type. *)
Definition sample_of_type (t : NotificationType) (id : string) (isRead : bool)
    : Notification.t :=
  {| Notification.id := id;
     Notification.type := t;
     Notification.category := Info;
     Notification.priority := Medium;
     Notification.title := "title";
     Notification.message := "message";
     Notification.detailedMessage := None;
     Notification.timestamp := 1000;
     Notification.expiresAt := None;
     Notification.isRead := isRead;
     Notification.actionRequired := false;
     Notification.actionText := None;
     Notification.actionUrl := None;
     Notification.relatedCrop := None;
     Notification.data := None;
     Notification.deliveryChannels := [] |}.
(** * Properties *)

(** ** Heap bookkeeping *)

Lemma alloc_array_fresh (xs : list nat) (s : Service) :
  (alloc_array xs s).1 ∉ dom (arrays s).
Proof. apply is_fresh. Qed.

Lemma alloc_array_lookup (xs : list nat) (s : Service) :
  arrays (alloc_array xs s).2 !! (alloc_array xs s).1 = Some xs.
Proof. simpl. apply lookup_insert_eq. Qed.

Lemma alloc_array_old (xs : list nat) (s : Service) (a : nat) :
  a ∈ dom (arrays s) -> arrays (alloc_array xs s).2 !! a = arrays s !! a.
Proof.
  intros Ha. simpl. apply lookup_insert_ne.
  intros E. apply (alloc_array_fresh xs s). simpl. by rewrite E.
Qed.

Lemma alloc_array_dom (xs : list nat) (s : Service) :
  dom (arrays (alloc_array xs s).2) = {[ (alloc_array xs s).1 ]} ∪ dom (arrays s).
Proof. simpl. apply dom_insert_L. Qed.

Lemma slice0_take (k : nat) (xs : list nat) : slice0 (Z.of_nat k) xs = take k xs.
Proof.
  unfold slice0. destruct (Z.ltb_spec (Z.of_nat k) 0); [lia|].
  by rewrite Nat2Z.id.
Qed.

(** ** The store after [sendNotification] *)

Lemma refs_unshift (l : nat) (s : Service) : refs (unshift l s) = l :: refs s.
Proof. unfold refs at 1, array_at. simpl. by rewrite lookup_insert_eq. Qed.

Lemma refs_limit_size (s : Service) : refs (limit_size s) = take 100 (refs s).
Proof.
  unfold limit_size.
  destruct (Nat.ltb_spec 100 (length (refs s))) as [H|H].
  - unfold array_slice0, refs at 1, array_at. simpl.
    rewrite lookup_insert_eq. simpl.
    change 100%Z with (Z.of_nat 100). apply slice0_take.
  - symmetry. by apply take_ge.
Qed.

Lemma objects_limit_size (s : Service) : objects (limit_size s) = objects s.
Proof. unfold limit_size. by destruct (100 <? length (refs s))%nat. Qed.

Lemma update_channel_arrays l i f s :
  arrays (update_channel l i f s) = arrays s
  /\ notifications (update_channel l i f s) = notifications s
  /\ notificationPermission (update_channel l i f s) = notificationPermission s
  /\ constructorError (update_channel l i f s) = constructorError s
  /\ displayed (update_channel l i f s) = displayed s.
Proof. done. Qed.

Lemma same_platform_refl s : same_platform s s.
Proof. by repeat split. Qed.

Lemma same_platform_trans s1 s2 s3 :
  same_platform s1 s2 -> same_platform s2 s3 -> same_platform s1 s3.
Proof.
  unfold same_platform. intros (?&?&?&?&?&?) (?&?&?&?&?&?).
  repeat split; congruence.
Qed.

Lemma deliverThroughChannel_spec (l i : nat) (now : Z) (s : Service)
    (n : Notification.t) (c : DeliveryChannel.t) :
  objects s !! l = Some n ->
  Notification.deliveryChannels n !! i = Some c ->
  let s' := deliverThroughChannel l i now s in
  same_platform s s'
  /\ objects s' =
     <[l := with_deliveryChannels
              (<[i := attempt_outcome s now c]> (Notification.deliveryChannels n)) n]>
       (objects s).
Proof.
  intros Hn Hc. unfold deliverThroughChannel. rewrite Hn, Hc. simpl.
  assert (Halt : forall f (s0 : Service), objects s0 = objects s ->
            objects (update_channel l i f s0) =
            <[l := with_deliveryChannels
                     (<[i := f c]> (Notification.deliveryChannels n)) n]> (objects s)).
  { intros f s0 E. unfold update_channel. simpl. rewrite E.
    apply map_eq. intros j. rewrite lookup_alter, lookup_insert.
    destruct (decide (l = j)) as [<-|]; [|done].
    rewrite Hn. simpl. f_equal. f_equal.
    apply list_eq. intros k. rewrite list_lookup_alter, list_lookup_insert.
    destruct (decide (i = k)) as [<-|].
    - rewrite Hc. simpl. rewrite decide_True; [done|].
      split; [done|]. by eapply lookup_lt_Some.
    - rewrite decide_False; [done|]. by intros [? _]. }
  unfold attempt_outcome, sendPushNotification.
  destruct (DeliveryChannel.channel c);
    try (split; [by repeat split | by apply Halt]).
  destruct (notificationPermission s);
    try (split; [by repeat split | by apply Halt]).
  destruct (constructorError s);
    (split; [by repeat split | by apply Halt]).
Qed.

Lemma dispatched_lookup f k (cs : list DeliveryChannel.t) :
  dispatched f k cs !! k = cs !! k.
Proof.
  unfold dispatched. destruct (decide (k <= length cs)) as [H|H].
  - rewrite lookup_app_r; rewrite length_map, length_take, Nat.min_l by lia; [|lia].
    rewrite Nat.sub_diag, lookup_drop. f_equal. lia.
  - rewrite take_ge, drop_ge, app_nil_r by lia.
    rewrite list_lookup_fmap. rewrite (lookup_ge_None_2 cs k) by lia. done.
Qed.

Lemma dispatched_S f k (cs : list DeliveryChannel.t) c :
  cs !! k = Some c ->
  dispatched f (S k) cs = <[k := f c]> (dispatched f k cs).
Proof.
  intros Hc. unfold dispatched.
  assert (Hk : k < length cs) by by eapply lookup_lt_Some.
  rewrite (take_S_r _ _ _ Hc), (drop_S _ _ _ Hc), map_app. simpl.
  rewrite <- app_assoc. simpl.
  replace k with (length (map f (take k cs)) + 0) at 3
    by (rewrite length_map, length_take; lia).
  by rewrite insert_app_r.
Qed.

Lemma with_deliveryChannels_twice cs cs' n :
  with_deliveryChannels cs (with_deliveryChannels cs' n) = with_deliveryChannels cs n.
Proof. done. Qed.

Lemma attempt_outcome_platform s s' now c :
  same_platform s s' -> attempt_outcome s' now c = attempt_outcome s now c.
Proof. intros (_&_&Hp&He&_). unfold attempt_outcome. by rewrite Hp, He. Qed.

Lemma deliver_loop_spec (l : nat) (now : Z) (s : Service) (n : Notification.t) :
  objects s !! l = Some n ->
  forall (m k : nat) (sk : Service),
    k + m = length (Notification.deliveryChannels n) ->
    same_platform s sk ->
    objects sk =
      <[l := with_deliveryChannels
               (dispatched (dispatch_outcome s now) k (Notification.deliveryChannels n)) n]>
        (objects s) ->
    let s' := fold_left (deliver_if_enabled l now) (seq k m) sk in
    same_platform s s'
    /\ objects s' =
       <[l := with_deliveryChannels
                (map (dispatch_outcome s now) (Notification.deliveryChannels n)) n]>
         (objects s).
Proof.
  intros Hn. induction m as [|m IH]; intros k sk Hlen Hp Ho; simpl.
  - split; [done|]. rewrite Ho. unfold dispatched.
    rewrite take_ge, drop_ge, app_nil_r by lia. done.
  - assert (Hk : k < length (Notification.deliveryChannels n)) by lia.
    destruct (lookup_lt_is_Some_2 _ _ Hk) as [c Hc].
    assert (Hlk : objects sk !! l = Some (with_deliveryChannels
               (dispatched (dispatch_outcome s now) k (Notification.deliveryChannels n)) n))
      by (rewrite Ho; apply lookup_insert_eq).
    assert (Hck : channel_at sk l k = Some c).
    { unfold channel_at. rewrite Hlk. simpl. by rewrite dispatched_lookup. }
    apply IH; [lia| |]; unfold deliver_if_enabled; rewrite Hck.
    + destruct (DeliveryChannel.enabled c); [|done].
      eapply same_platform_trans; [exact Hp|].
      eapply deliverThroughChannel_spec; [exact Hlk|].
      simpl. by rewrite dispatched_lookup.
    + rewrite (dispatched_S _ _ _ _ Hc). unfold dispatch_outcome at 1.
      destruct (DeliveryChannel.enabled c) eqn:He.
      * pose proof (deliverThroughChannel_spec l k now sk _ c Hlk) as Hd.
        simpl in Hd. rewrite dispatched_lookup in Hd. destruct (Hd Hc) as [_ ->].
        rewrite Ho, insert_insert_eq, with_deliveryChannels_twice.
        by rewrite (attempt_outcome_platform s sk).
      * rewrite Ho. f_equal. f_equal. symmetry. apply list_insert_id.
        by rewrite dispatched_lookup.
Qed.

Lemma deliver_channels_spec (l : nat) (now : Z) (s : Service) (n : Notification.t) :
  objects s !! l = Some n ->
  same_platform s (deliver_channels l now s)
  /\ objects (deliver_channels l now s) =
     <[l := with_deliveryChannels
              (map (dispatch_outcome s now) (Notification.deliveryChannels n)) n]>
       (objects s).
Proof.
  intros Hn. unfold deliver_channels. rewrite Hn.
  apply (deliver_loop_spec l now s n Hn); [lia | apply same_platform_refl |].
  unfold dispatched. rewrite take_0, drop_0. simpl.
  symmetry. apply insert_id. rewrite Hn. by destruct n.
Qed.

Lemma deliver_channels_platform (l : nat) (now : Z) (s : Service) :
  same_platform s (deliver_channels l now s).
Proof.
  destruct (objects s !! l) as [n|] eqn:Hn.
  - by apply (deliver_channels_spec l now s n).
  - unfold deliver_channels. rewrite Hn. apply same_platform_refl.
Qed.

Lemma deliverThroughChannel_silent (l i : nat) (now : Z) (s : Service) :
  notificationPermission s <> PermGranted ->
  displayed (deliverThroughChannel l i now s) = displayed s
  /\ notificationPermission (deliverThroughChannel l i now s) = notificationPermission s.
Proof.
  intros Hp. unfold deliverThroughChannel, sendPushNotification.
  destruct (objects s !! l) as [n|]; [|done].
  destruct (Notification.deliveryChannels n !! i) as [c|]; [|done].
  destruct (DeliveryChannel.channel c); try done.
  destruct (notificationPermission s) eqn:E; congruence || done.
Qed.

Lemma deliver_loop_silent (l : nat) (now : Z) (ixs : list nat) (s : Service) :
  notificationPermission s <> PermGranted ->
  displayed (fold_left (deliver_if_enabled l now) ixs s) = displayed s.
Proof.
  revert s. induction ixs as [|i ixs IH]; intros s Hp; [done|]. simpl.
  assert (H : displayed (deliver_if_enabled l now s i) = displayed s
              /\ notificationPermission (deliver_if_enabled l now s i)
                 = notificationPermission s).
  { unfold deliver_if_enabled. destruct (channel_at s l i) as [c|]; [|done].
    destruct (DeliveryChannel.enabled c); [|done].
    by apply deliverThroughChannel_silent. }
  destruct H as [Hd Hq]. rewrite IH; [done|]. by rewrite Hq.
Qed.

Lemma refs_same_platform s s' : same_platform s s' -> refs s' = refs s.
Proof. intros (Hn&Ha&_). unfold refs, array_at. by rewrite Hn, Ha. Qed.

Lemma refs_save s : refs (saveNotificationsToStorage s) = refs s.
Proof. unfold saveNotificationsToStorage. by destruct (storageWritable s). Qed.

Lemma objects_save s : objects (saveNotificationsToStorage s) = objects s.
Proof. unfold saveNotificationsToStorage. by destruct (storageWritable s). Qed.

Lemma displayed_save s : displayed (saveNotificationsToStorage s) = displayed s.
Proof. unfold saveNotificationsToStorage. by destruct (storageWritable s). Qed.

Lemma refs_sendNotification (l : nat) (now : Z) (s : Service) :
  refs (sendNotification l now s) = take 100 (l :: refs s).
Proof.
  unfold sendNotification.
  rewrite refs_save, (refs_same_platform _ _ (deliver_channels_platform _ _ _)).
  by rewrite refs_limit_size, refs_unshift.
Qed.

Lemma limit_size_platform (s : Service) :
  notificationPermission (limit_size s) = notificationPermission s
  /\ constructorError (limit_size s) = constructorError s
  /\ displayed (limit_size s) = displayed s.
Proof. unfold limit_size. by destruct (100 <? length (refs s))%nat. Qed.

Lemma attempt_outcome_ext s s' now c :
  notificationPermission s' = notificationPermission s ->
  constructorError s' = constructorError s ->
  attempt_outcome s' now c = attempt_outcome s now c.
Proof. intros Hp He. unfold attempt_outcome. by rewrite Hp, He. Qed.

(** After [sendNotification] the notification object carries the outcome of
    one dispatch per channel, and no other object has changed. *)
Lemma objects_sendNotification (l : nat) (now : Z) (s : Service)
    (n : Notification.t) :
  objects s !! l = Some n ->
  objects (sendNotification l now s) =
    <[l := with_deliveryChannels
             (map (dispatch_outcome s now) (Notification.deliveryChannels n)) n]>
      (objects s).
Proof.
  intros Hn. unfold sendNotification. rewrite objects_save.
  set (s1 := limit_size (unshift l s)).
  assert (Ho : objects s1 = objects s) by (unfold s1; by rewrite objects_limit_size).
  assert (Hn1 : objects s1 !! l = Some n) by by rewrite Ho.
  destruct (deliver_channels_spec l now s1 n Hn1) as [_ ->]. rewrite Ho.
  f_equal. f_equal. apply map_ext. intros c. unfold dispatch_outcome.
  destruct (DeliveryChannel.enabled c); [|done].
  apply attempt_outcome_ext; unfold s1.
  - by rewrite (proj1 (limit_size_platform _)).
  - by rewrite (proj1 (proj2 (limit_size_platform _))).
Qed.

Lemma displayed_sendNotification (l : nat) (now : Z) (s : Service) :
  notificationPermission s <> PermGranted ->
  displayed (sendNotification l now s) = displayed s.
Proof.
  intros Hp. unfold sendNotification. rewrite displayed_save.
  set (s1 := limit_size (unshift l s)).
  assert (Hp1 : notificationPermission s1 <> PermGranted)
    by (unfold s1; by rewrite (proj1 (limit_size_platform _))).
  assert (Hd1 : displayed s1 = displayed s)
    by (unfold s1; by rewrite (proj2 (proj2 (limit_size_platform _)))).
  unfold deliver_channels. destruct (objects s1 !! l); [|done].
  by rewrite deliver_loop_silent.
Qed.

(** ** Delivery outcomes (claims C1 and C2) *)

Lemma channel_at_sendNotification (l i : nat) (now : Z) (s : Service)
    (n : Notification.t) (c : DeliveryChannel.t) :
  objects s !! l = Some n ->
  Notification.deliveryChannels n !! i = Some c ->
  channel_at (sendNotification l now s) l i = Some (dispatch_outcome s now c).
Proof.
  intros Hn Hc. unfold channel_at.
  rewrite (objects_sendNotification l now s n Hn), lookup_insert_eq. simpl.
  by rewrite list_lookup_fmap, Hc.
Qed.

(** C1 (what the code does): when push permission has not been granted,
    dispatching a notification with an enabled push channel shows no platform
    notification, yet the push entry ends with [delivered = true] and a
    delivery time, and its [error] is left as it was. *)
Theorem push_without_permission_marked_delivered (l i : nat) (now : Z)
    (s : Service) (n : Notification.t) (c : DeliveryChannel.t) :
  objects s !! l = Some n ->
  Notification.deliveryChannels n !! i = Some c ->
  DeliveryChannel.channel c = Push ->
  DeliveryChannel.enabled c = true ->
  notificationPermission s <> PermGranted ->
  displayed (sendNotification l now s) = displayed s
  /\ exists c', channel_at (sendNotification l now s) l i = Some c'
       /\ DeliveryChannel.delivered c' = true
       /\ DeliveryChannel.deliveredAt c' = Some now
       /\ DeliveryChannel.error c' = DeliveryChannel.error c.
Proof.
  intros Hn Hc Hpush Hen Hperm. split; [by apply displayed_sendNotification|].
  exists (mark_delivered now c). split; [|done].
  rewrite (channel_at_sendNotification l i now s n c Hn Hc).
  unfold dispatch_outcome, attempt_outcome. rewrite Hen, Hpush.
  destruct (notificationPermission s); [done|congruence|done].
Qed.

Lemma push_without_permission_witness :
  let s := service_with PermDefault []
             [sample_notification "n1" None false [new_channel Push; new_channel InApp]] in
  displayed (sendNotification 0 2000 s) = []
  /\ exists c', channel_at (sendNotification 0 2000 s) 0 0 = Some c'
       /\ DeliveryChannel.delivered c' = true
       /\ DeliveryChannel.deliveredAt c' = Some 2000%Z
       /\ DeliveryChannel.error c' = None.
Proof.
  apply (push_without_permission_marked_delivered 0 0 2000
           (service_with PermDefault []
              [sample_notification "n1" None false [new_channel Push; new_channel InApp]])
           (sample_notification "n1" None false [new_channel Push; new_channel InApp])
           (new_channel Push)); by vm_compute.
Defined.




Example dispatch_without_permission :
  let s := service_with PermDenied []
             [sample_notification "n1" None false
                [new_channel Push; new_channel InApp; new_channel Sms; new_channel Email]] in
  Notification.deliveryChannels <$> objects (sendNotification 0 2000 s) !! 0
  = Some [ DeliveryChannel.mk Push true true (Some 2000%Z) None;
           DeliveryChannel.mk InApp true true (Some 2000%Z) None;
           DeliveryChannel.mk Sms true true (Some 2000%Z) None;
           DeliveryChannel.mk Email true true (Some 2000%Z) None ]
  /\ displayed (sendNotification 0 2000 s) = [].
Proof. by vm_compute. Qed.

(** ** The capacity of the store (claim C3) *)

Lemma take_app_take (n : nat) (xs ys : list nat) :
  take n (xs ++ take n ys) = take n (xs ++ ys).
Proof.
  rewrite !take_app. f_equal. rewrite take_take. f_equal. lia.
Qed.

Lemma refs_send_all (calls : list (nat * Z)) (s : Service) :
  length (refs s) <= 100 ->
  refs (send_all calls s) = take 100 (rev (map fst calls) ++ refs s).
Proof.
  revert s. induction calls as [|c calls IH]; intros s Hs; simpl.
  - symmetry. by apply take_ge.
  - unfold send_all in *. simpl. rewrite IH.
    + rewrite refs_sendNotification, take_app_take, <- app_assoc. done.
    + rewrite refs_sendNotification, length_take. lia.
Qed.

(** C3: starting from a store of at most 100 notifications, after every call
    of a sequence of [sendNotification] calls the store holds at most 100
    notifications; it is the first 100 of all notifications ever held, most
    recently appended first, so the new one is at the head and the ones
    dropped are the oldest. *)
Theorem store_capacity (s : Service) (calls : list (nat * Z)) (k : nat) :
  length (refs s) <= 100 ->
  let all := (rev (map fst (take k calls)) ++ refs s)%list in
  let s' := send_all (take k calls) s in
  length (refs s') <= 100
  /\ refs s' = take 100 all
  /\ (refs s' ++ drop 100 all)%list = all
  /\ forall l now, refs (sendNotification l now s') = take 100 (l :: refs s').
Proof.
  intros Hs all s'. assert (Hr : refs s' = take 100 all) by by apply refs_send_all.
  rewrite Hr. repeat split.
  - rewrite length_take. lia.
  - apply take_drop.
  - intros l now. by rewrite refs_sendNotification, Hr.
Qed.

Lemma store_capacity_witness :
  let s := service_with PermDefault
             [sample_notification "a" None false [new_channel InApp]]
             [sample_notification "b" None false [new_channel Push];
              sample_notification "c" None false []] in
  let s' := send_all [(1, 2000%Z); (2, 3000%Z)] s in
  length (refs s') <= 100
  /\ refs s' = [2; 1; 0]
  /\ (refs s' ++ [])%list = [2; 1; 0]
  /\ forall l now, refs (sendNotification l now s') = take 100 (l :: refs s').
Proof.
  apply (store_capacity
           (service_with PermDefault
              [sample_notification "a" None false [new_channel InApp]]
              [sample_notification "b" None false [new_channel Push];
               sample_notification "c" None false []])
           [(1, 2000%Z); (2, 3000%Z)] 2).
  vm_compute. lia.
Defined.

(** At the cap: the 101st notification goes to the head and the oldest one
    (the last of the array) is the one dropped. *)
Example store_capacity_at_cap :
  let held := replicate 100 (sample_notification "old" None false []) in
  let s := service_with PermDefault held [sample_notification "new" None false []] in
  refs s = seq 0 100
  /\ refs (sendNotification 100 2000 s) = 100 :: seq 0 99.
Proof. by vm_compute. Qed.

(** ** The price alert normalizer (claim C4) *)

Lemma alloc_object_lookup (n : Notification.t) (s : Service) :
  objects (alloc_object n s).2 !! (alloc_object n s).1 = Some n
  /\ refs (alloc_object n s).2 = refs s.
Proof. split; [apply lookup_insert_eq | done]. Qed.

(** The notification a price alert is normalized into is the head of the
    store after [createNotificationFromPriceAlert], with only its delivery
    channels dispatched. *)
Lemma createNotificationFromPriceAlert_head (numberToString : float -> string)
    (alert : PriceAlert.t) (now : Z) (s : Service) :
  let s' := createNotificationFromPriceAlert numberToString alert now s in
  exists cs,
    head (contents s') =
      Some (with_deliveryChannels cs (price_notification numberToString alert now)).
Proof.
  unfold createNotificationFromPriceAlert.
  destruct (alloc_object (price_notification numberToString alert now) s)
    as [l s1] eqn:E.
  pose proof (alloc_object_lookup (price_notification numberToString alert now) s) as [Hl _].
  rewrite E in Hl. simpl in Hl.
  eexists. unfold contents. rewrite refs_sendNotification. simpl.
  rewrite (objects_sendNotification l now s1 _ Hl), lookup_insert_eq. done.
Qed.

(** C4: a price alert is normalized into a notification whose category is
    "alert" exactly when |changePercentage| > 10 and "info" otherwise, and
    whose priority is "high" exactly when |changePercentage| > 15 and
    "medium" otherwise; the notification stored has the same category and
    priority; with changePercentage = 12 they are "alert" and "medium". *)
Theorem price_alert_thresholds (numberToString : float -> string)
    (alert : PriceAlert.t) (now : Z) (s : Service) :
  let n := price_notification numberToString alert now in
  let magnitude := PrimFloat.abs (PriceAlert.changePercentage alert) in
  (Notification.category n = Alert <-> (10 <? magnitude)%float = true)
  /\ (Notification.category n = Info <-> (10 <? magnitude)%float = false)
  /\ (Notification.priority n = High <-> (15 <? magnitude)%float = true)
  /\ (Notification.priority n = Medium <-> (15 <? magnitude)%float = false)
  /\ (exists n',
        head (contents (createNotificationFromPriceAlert numberToString alert now s))
          = Some n'
        /\ Notification.category n' = Notification.category n
        /\ Notification.priority n' = Notification.priority n)
  /\ (PriceAlert.changePercentage alert = 12%float ->
      Notification.category n = Alert /\ Notification.priority n = Medium).
Proof.
  intros n magnitude. unfold n, magnitude. simpl.
  repeat match goal with |- _ /\ _ => split end.
  - destruct (10 <? _)%float; split; intros; congruence.
  - destruct (10 <? _)%float; split; intros; congruence.
  - destruct (15 <? _)%float; split; intros; congruence.
  - destruct (15 <? _)%float; split; intros; congruence.
  - destruct (createNotificationFromPriceAlert_head numberToString alert now s)
      as [cs Hcs].
    eexists. split; [exact Hcs|done].
  - intros ->. by vm_compute.
Qed.

Example price_alert_at_thresholds :
  let alert cp := PriceAlert.mk "price_1" "Rice" "Standard" 2300%float 2000%float 300%float cp
                    "Local Mandi" SuddenSpike [] in
  let n cp := price_notification (fun _ => "") (alert cp) 0 in
  (Notification.category (n 10%float), Notification.priority (n 10%float))
    = (Info, Medium)
  /\ (Notification.category (n (-10.5)%float), Notification.priority (n (-10.5)%float))
     = (Alert, Medium)
  /\ (Notification.category (n 15%float), Notification.priority (n 15%float))
     = (Alert, Medium)
  /\ (Notification.category (n (-15.5)%float), Notification.priority (n (-15.5)%float))
     = (Alert, High).
Proof. by vm_compute. Qed.

(** ** Analytics (claim C5) *)

Lemma filter_bool_prop {A : Type} (p : A -> bool) (P : A -> Prop)
    `{!forall x, Decision (P x)} (xs : list A) :
  (forall x, p x = true <-> P x) -> List.filter p xs = filter P xs.
Proof.
  intros HpP. induction xs as [|x xs IH]; [done|]. simpl.
  rewrite filter_cons, IH. destruct (p x) eqn:E.
  - rewrite decide_True; [done|]. by apply HpP.
  - rewrite decide_False; [done|]. rewrite <- HpP. congruence.
Qed.

Lemma omap_filter_holds (s : Service) (p : Notification.t -> bool) (ls : list nat) :
  omap (fun l => objects s !! l) (List.filter (holds s p) ls)
  = List.filter p (omap (fun l => objects s !! l) ls).
Proof.
  induction ls as [|l ls IH]; [done|]. simpl. unfold holds at 1.
  destruct (objects s !! l) as [n|] eqn:E; simpl; [|exact IH].
  destruct (p n); simpl; rewrite ?E; simpl; first [exact IH | f_equal; exact IH].
Qed.

Lemma length_filter_holds (s : Service) (p : Notification.t -> bool) (ls : list nat) :
  length (List.filter (holds s p) ls)
  = length (List.filter p (omap (fun l => objects s !! l) ls)).
Proof.
  induction ls as [|l ls IH]; [done|]. simpl. unfold holds at 1.
  destruct (objects s !! l) as [n|] eqn:E; simpl; [|exact IH].
  destruct (p n); simpl; first [exact IH | f_equal; exact IH].
Qed.

Lemma some_delivered_iff (n : Notification.t) :
  some_delivered n = true
  <-> Exists (fun c => DeliveryChannel.delivered c = true)
             (Notification.deliveryChannels n).
Proof.
  unfold some_delivered. rewrite existsb_exists, Exists_exists.
  split; intros (c & Hc & Hd); exists c; split; try done;
    by apply list_elem_of_In.
Qed.

Section AnalyticsSpec.

Variable startDate : Timeframe -> Z -> Z.

Lemma window_relevant (timeframe : Timeframe) (now : Z) (s : Service) :
  omap (fun l => objects s !! l) (relevantNotifications startDate timeframe now s)
  = window startDate timeframe now s.
Proof.
  unfold relevantNotifications, window, contents. rewrite omap_filter_holds.
  apply filter_bool_prop. intros n. apply Z.leb_le.
Qed.

(** C5: the totals are the counts over the window (sent: all of them;
    delivered: those with at least one channel entry delivered; read: those
    with [isRead]), and the two rates are the quotients times 100, or 0 when
    the denominator is 0. *)
Theorem analytics_totals_and_rates (userId : string) (timeframe : Timeframe)
    (now : Z) (s : Service) :
  let a := getNotificationAnalytics startDate userId timeframe now s in
  let w := window startDate timeframe now s in
  totalSent a = length w
  /\ totalDelivered a =
     length (filter (fun n => Exists (fun c => DeliveryChannel.delivered c = true)
                                     (Notification.deliveryChannels n)) w)
  /\ totalRead a = length (filter (fun n => Notification.isRead n = true) w)
  /\ deliveryRate a = percentage (totalDelivered a) (totalSent a)
  /\ readRate a = percentage (totalRead a) (totalDelivered a).
Proof.
  intros a w. unfold a, w. simpl.
  repeat match goal with |- _ /\ _ => split end.
  - rewrite <- window_relevant. unfold relevantNotifications.
    by rewrite omap_filter_holds, length_filter_holds.
  - rewrite length_filter_holds, window_relevant.
    f_equal. apply filter_bool_prop, some_delivered_iff.
  - rewrite length_filter_holds, window_relevant.
    f_equal. by apply filter_bool_prop.
  - unfold percentage. destruct (length _) eqn:E; [done|].
    by rewrite decide_False.
  - unfold percentage. destruct (length _) eqn:E; [done|].
    by rewrite decide_False.
Qed.

End AnalyticsSpec.

(** The example of the specification: 7 of 10 delivered, 4 of 7 read. *)
Example percentage_example :
  percentage 7 10 = 70%float /\ percentage 4 7 = 0x1.c924924924924p+5%float
  /\ percentage 3 0 = 0%float.
Proof. by vm_compute. Qed.

(** ** Marking all notifications read (claim C6) *)

Lemma with_isRead_twice b n : with_isRead b (with_isRead b n) = with_isRead b n.
Proof. done. Qed.

Lemma fold_mark_read_frame (ls : list nat) (s : Service) :
  same_platform s (fold_left mark_read ls s)
  /\ displayed (fold_left mark_read ls s) = displayed s.
Proof.
  revert s. induction ls as [|x ls IH]; intros s; simpl.
  - split; [apply same_platform_refl | done].
  - destruct (IH (mark_read s x)) as [Hp Hd]. split; [|by rewrite Hd].
    eapply same_platform_trans; [|exact Hp]. by repeat split.
Qed.

Lemma fold_mark_read_lookup (ls : list nat) (s : Service) (l : nat) :
  objects (fold_left mark_read ls s) !! l =
    if decide (l ∈ ls) then with_isRead true <$> objects s !! l
    else objects s !! l.
Proof.
  revert s. induction ls as [|x ls IH]; intros s; cbn [fold_left].
  - rewrite decide_False; [done|]. apply not_elem_of_nil.
  - rewrite IH. unfold mark_read at 1 2. cbn [objects set_objects].
    rewrite lookup_alter.
    repeat case_decide; subst; try done;
      try (exfalso;
           match goal with H : _ ∉ _ :: _ |- _ => apply H, elem_of_cons; auto end).
    + by destruct (objects s !! l).
    + exfalso.
      match goal with H : _ ∈ _ :: _ |- _ => apply elem_of_cons in H as [?|?] end;
        congruence.
Qed.

Lemma omap_fmap_on {A B : Type} (f : B -> B) (g h : A -> option B) (xs : list A) :
  (forall x, x ∈ xs -> h x = f <$> g x) -> omap h xs = map f (omap g xs).
Proof.
  induction xs as [|x xs IH]; intros Hh; [done|].
  assert (Hx : h x = f <$> g x) by (apply Hh, elem_of_cons; by left).
  assert (Hxs : omap h xs = map f (omap g xs))
    by (apply IH; intros y Hy; apply Hh, elem_of_cons; by right).
  simpl. rewrite Hx. destruct (g x); simpl; first [exact Hxs | f_equal; exact Hxs].
Qed.

Lemma no_unread_after_marking (ns : list Notification.t) :
  List.filter (fun n => negb (Notification.isRead n)) (map (with_isRead true) ns) = [].
Proof. induction ns as [|n ns IH]; [done|]. simpl. exact IH. Qed.

Lemma getUnreadCount_contents (userId : string) (s : Service) :
  getUnreadCount userId s
  = length (List.filter (fun n => negb (Notification.isRead n)) (contents s)).
Proof. unfold getUnreadCount, contents. apply length_filter_holds. Qed.

Lemma contents_markAllAsRead (userId : string) (s : Service) :
  refs (markAllAsRead userId s) = refs s
  /\ contents (markAllAsRead userId s) = map (with_isRead true) (contents s).
Proof.
  assert (Hr : refs (markAllAsRead userId s) = refs s).
  { unfold markAllAsRead. rewrite refs_save.
    apply refs_same_platform, fold_mark_read_frame. }
  split; [exact Hr|]. unfold contents. rewrite Hr.
  apply omap_fmap_on. intros l Hl. unfold markAllAsRead.
  rewrite objects_save, fold_mark_read_lookup. by rewrite decide_True.
Qed.

(** C6: [markAllAsRead(u)] sets [isRead] on every notification the store
    holds, whatever [u] is, and leaves the records otherwise as they were;
    right afterwards [getUnreadCount(u')] is 0 for every [u']. *)
Theorem markAllAsRead_marks_every_notification (userId : string) (s : Service) :
  let s' := markAllAsRead userId s in
  refs s' = refs s
  /\ contents s' = map (with_isRead true) (contents s)
  /\ Forall (fun n => Notification.isRead n = true) (contents s')
  /\ (forall userId', markAllAsRead userId' s = s')
  /\ (forall userId', getUnreadCount userId' s' = 0).
Proof.
  intros s'. destruct (contents_markAllAsRead userId s) as [Hr Hc].
  repeat match goal with |- _ /\ _ => split end; try done.
  - unfold s'. rewrite Hc. apply Forall_forall. intros n Hn.
    apply list_elem_of_fmap in Hn as (m & -> & _). done.
  - intros u'. rewrite getUnreadCount_contents. unfold s'. rewrite Hc.
    by rewrite no_unread_after_marking.
Qed.

Example markAllAsRead_example :
  let s := service_with PermDefault
             [sample_notification "a" None false [];
              sample_notification "b" None true [];
              sample_notification "c" None false []] [] in
  getUnreadCount "farmer-1" s = 2
  /\ getUnreadCount "farmer-2" (markAllAsRead "farmer-1" s) = 0.
Proof. by vm_compute. Qed.

(** ** Queries *)

Lemma extends_refl s : extends s s.
Proof. by repeat split. Qed.

Lemma extends_alloc s0 s xs : extends s0 s -> extends s0 (alloc_array xs s).2.
Proof.
  intros (Ho & Hp & Hd & Ha). repeat split; try done; try apply Hp.
  - rewrite alloc_array_dom. apply elem_of_union_r. by apply Ha.
  - rewrite alloc_array_old; by apply Ha.
Qed.

Lemma extends_refs s s' :
  (notifications s ∈ dom (arrays s)) -> extends s s' -> refs s' = refs s.
Proof.
  intros Hw (_ & (Hn & _) & _ & Ha). simpl in Hn.
  unfold refs, array_at. rewrite Hn. by rewrite (proj2 (Ha _ Hw)).
Qed.

Lemma holds_extends s s' p : extends s s' -> holds s' p = holds s p.
Proof. intros (Ho & _). unfold holds. by rewrite Ho. Qed.

Lemma query_alloc s0 s xs : extends s0 s -> query_result s0 xs (alloc_array xs s).
Proof.
  intros He. split; [by apply extends_alloc|]. split; [|apply alloc_array_lookup].
  intros Hin. apply (alloc_array_fresh xs s). by apply He.
Qed.

Lemma query_filter s0 p xs a s :
  query_result s0 xs (a, s) ->
  query_result s0 (List.filter (holds s0 p) xs) (array_filter p a s).
Proof.
  intros (He & _ & Ha). simpl in *. unfold array_filter, array_at.
  rewrite Ha, (holds_extends s0 s p He). simpl. by apply query_alloc.
Qed.

Lemma query_slice s0 k xs a s :
  query_result s0 xs (a, s) -> query_result s0 (slice0 k xs) (array_slice0 k a s).
Proof.
  intros (He & _ & Ha). simpl in *. unfold array_slice0, array_at.
  rewrite Ha. simpl. by apply query_alloc.
Qed.

Ltac query_step :=
  match goal with
  | H : query_result ?s0 ?xs (?a, ?s) |- context [array_filter ?p ?a ?s] =>
      apply (query_filter s0 p) in H; destruct (array_filter p a s)
  | H : query_result ?s0 ?xs (?a, ?s) |- context [array_slice0 ?k ?a ?s] =>
      apply (query_slice s0 k) in H; destruct (array_slice0 k a s)
  end.

Lemma getNotifications_result (userId : string) (filters : option Filters)
    (s : Service) :
  query_result s (query_refs filters s) (getNotifications userId filters s).
Proof.
  unfold getNotifications, query_refs.
  pose proof (query_alloc s s (refs s) (extends_refl s)) as H.
  destruct (alloc_array (refs s) s) as [a0 s0].
  destruct (truthy_string (filters ≫= f_type)); [query_step|];
    (destruct (truthy_string (filters ≫= f_category)); [query_step|]);
    (destruct (filters ≫= f_isRead); [query_step|]);
    (destruct (truthy_number (filters ≫= f_limit)); [query_step|]);
    exact H.
Qed.

Lemma getNotifications_elements (userId : string) (filters : option Filters)
    (s : Service) :
  let r := getNotifications userId filters s in
  array_at r.2 r.1 = query_refs filters s /\ objects r.2 = objects s.
Proof.
  destruct (getNotifications_result userId filters s) as (He & _ & Ha).
  simpl. unfold array_at. rewrite Ha. split; [done|apply He].
Qed.

(** ** Expiry (claim C7) *)

Lemma refs_array_filter p s :
  let r := array_filter p (notifications s) s in
  refs (saveNotificationsToStorage (set_notifications r.1 r.2))
    = List.filter (holds s p) (refs s)
  /\ objects (saveNotificationsToStorage (set_notifications r.1 r.2)) = objects s.
Proof.
  simpl. rewrite refs_save, objects_save. split; [|done].
  unfold refs at 1, array_at. simpl. by rewrite lookup_insert_eq.
Qed.

Lemma cleanup_refs (now : Z) (s : Service) :
  refs (cleanup now s) =
    List.filter (holds s (fun n => match Notification.expiresAt n with
                                   | None => true
                                   | Some e => (now <? e)%Z
                                   end)) (refs s)
  /\ objects (cleanup now s) = objects s.
Proof. apply refs_array_filter. Qed.

(** C7: a query without filters returns every notification the store holds,
    expired ones included, and changes nothing; [cleanup] keeps exactly the
    notifications with no [expiresAt] or with [expiresAt] strictly after the
    current time, in their order, and leaves the records as they are. *)
Theorem expiry_only_on_cleanup (userId : string) (now : Z) (s : Service) :
  let q := getNotifications userId None s in
  let q' := getNotifications userId (Some no_filters) s in
  array_at q.2 q.1 = refs s
  /\ array_at q'.2 q'.1 = refs s
  /\ objects q.2 = objects s
  /\ objects q'.2 = objects s
  /\ contents (cleanup now s) = filter (unexpired now) (contents s)
  /\ objects (cleanup now s) = objects s.
Proof.
  intros q q'.
  destruct (getNotifications_elements userId None s) as [H1 H2].
  destruct (getNotifications_elements userId (Some no_filters) s) as [H3 H4].
  destruct (cleanup_refs now s) as [Hr Ho].
  repeat match goal with |- _ /\ _ => split end; try done.
  unfold contents. rewrite Hr, Ho, omap_filter_holds.
  apply filter_bool_prop. intros n. unfold unexpired.
  destruct (Notification.expiresAt n) as [e|].
  - rewrite Z.ltb_lt. split; [by intros ? ? [= <-] | by intros H; apply H].
  - split; [by intros|done].
Qed.

Example expired_until_cleanup :
  let s := service_with PermDefault
             [sample_notification "fresh" (Some 9000%Z) false [];
              sample_notification "stale" (Some 4000%Z) false [];
              sample_notification "now" (Some 5000%Z) false [];
              sample_notification "forever" None false []] [] in
  let q := getNotifications "farmer-1" (Some no_filters) s in
  array_at q.2 q.1 = [0; 1; 2; 3]
  /\ refs (cleanup 5000 s) = [0; 3]
  /\ map Notification.id (contents (cleanup 5000 s)) = ["fresh"; "forever"].
Proof. by vm_compute. Qed.

(** ** Idempotence of [markAsRead] and [deleteNotification] (claim C8) *)

Lemma alter_with_isRead_twice (l : nat) (m : gmap nat Notification.t) :
  alter (with_isRead true) l (alter (with_isRead true) l m)
  = alter (with_isRead true) l m.
Proof.
  apply map_eq. intros j. destruct (decide (l = j)) as [<-|Hne].
  - rewrite !lookup_alter_eq. by destruct (m !! l).
  - by rewrite !lookup_alter_ne.
Qed.

Lemma set_objects_same (s : Service) : set_objects (objects s) s = s.
Proof. by destruct s. Qed.

Lemma save_twice (s : Service) :
  saveNotificationsToStorage (saveNotificationsToStorage s)
  = saveNotificationsToStorage s.
Proof.
  unfold saveNotificationsToStorage.
  destruct (storageWritable s) eqn:E; simpl; by rewrite E.
Qed.

Lemma holds_id_mark_read (s : Service) (l : nat) (id : string) (l' : nat) :
  holds (saveNotificationsToStorage (mark_read s l))
        (fun n => String.eqb (Notification.id n) id) l'
  = holds s (fun n => String.eqb (Notification.id n) id) l'.
Proof.
  unfold holds. rewrite objects_save. simpl.
  destruct (decide (l = l')) as [<-|Hne].
  - rewrite lookup_alter_eq. by destruct (objects s !! l).
  - by rewrite lookup_alter_ne.
Qed.

Lemma find_ext {A : Type} (p q : A -> bool) (xs : list A) :
  (forall x, p x = q x) -> List.find p xs = List.find q xs.
Proof.
  intros H. induction xs as [|x xs IH]; [done|]. simpl. by rewrite H, IH.
Qed.

Lemma markAsRead_twice (id : string) (s : Service) :
  markAsRead id (markAsRead id s) = markAsRead id s.
Proof.
  unfold markAsRead at 2 3.
  destruct (List.find _ (refs s)) as [l|] eqn:E.
  - unfold markAsRead.
    rewrite refs_save.
    change (refs (mark_read s l)) with (refs s).
    rewrite (find_ext _ _ _ (holds_id_mark_read s l id)), E.
    assert (Hm : mark_read (saveNotificationsToStorage (mark_read s l)) l
                 = saveNotificationsToStorage (mark_read s l)).
    { generalize (alter_with_isRead_twice l (objects s)).
      change (alter (with_isRead true) l (objects s)) with (objects (mark_read s l)).
      generalize (mark_read s l). intros x Hx.
      unfold mark_read. rewrite objects_save, Hx, <- (objects_save x).
      apply set_objects_same. }
    rewrite Hm. apply save_twice.
  - unfold markAsRead. by rewrite E.
Qed.

Lemma filter_all_true {A : Type} (p : A -> bool) (xs : list A) :
  Forall (fun x => p x = true) xs -> List.filter p xs = xs.
Proof.
  induction 1 as [|x xs Hx _ IH]; [done|]. simpl. by rewrite Hx, IH.
Qed.

Lemma filter_twice {A : Type} (p : A -> bool) (xs : list A) :
  List.filter p (List.filter p xs) = List.filter p xs.
Proof.
  induction xs as [|x xs IH]; [done|]. simpl.
  destruct (p x) eqn:E; simpl; by rewrite ?E, IH.
Qed.

Lemma deleteNotification_refs (id : string) (s : Service) :
  refs (deleteNotification id s) =
    List.filter (holds s (fun n => negb (String.eqb (Notification.id n) id))) (refs s)
  /\ objects (deleteNotification id s) = objects s.
Proof. apply refs_array_filter. Qed.

Lemma absent_holds (id : string) (s : Service) :
  no_dangling s -> absent id s ->
  Forall (fun l => holds s (fun n => negb (String.eqb (Notification.id n) id)) l = true)
         (refs s).
Proof.
  unfold no_dangling, absent, contents.
  induction (refs s) as [|l ls IH]; intros Hd Ha; [done|].
  apply Forall_cons in Hd as [[n Hn] Hd]. simpl in Ha. rewrite Hn in Ha.
  apply Forall_cons in Ha as [Hid Ha]. constructor; [|by apply IH].
  unfold holds. rewrite Hn. apply negb_true_iff, String.eqb_neq. done.
Qed.

(** C8: [markAsRead(id)] twice leaves the service in the state one call
    leaves it in; [deleteNotification(id)], which always returns, leaves the
    notifications held and their records unchanged when no record has the
    identifier, and a second [deleteNotification(id)] changes nothing the
    first has not. *)
Theorem markAsRead_delete_idempotent (id : string) (s : Service) :
  markAsRead id (markAsRead id s) = markAsRead id s
  /\ (no_dangling s -> absent id s ->
      refs (deleteNotification id s) = refs s
      /\ objects (deleteNotification id s) = objects s
      /\ contents (deleteNotification id s) = contents s)
  /\ refs (deleteNotification id (deleteNotification id s))
     = refs (deleteNotification id s)
  /\ objects (deleteNotification id (deleteNotification id s))
     = objects (deleteNotification id s).
Proof.
  destruct (deleteNotification_refs id s) as [Hr Ho].
  destruct (deleteNotification_refs id (deleteNotification id s)) as [Hr2 Ho2].
  repeat match goal with |- _ /\ _ => split end.
  - apply markAsRead_twice.
  - intros Hd Ha. pose proof (filter_all_true _ _ (absent_holds id s Hd Ha)) as Hf.
    unfold contents. by rewrite Hr, Ho, Hf.
  - rewrite Hr2, Hr. unfold holds. rewrite Ho. apply filter_twice.
  - by rewrite Ho2.
Qed.

Lemma markAsRead_delete_witness :
  let s := service_with PermDefault
             [sample_notification "a" None false [new_channel InApp];
              sample_notification "b" None false []] [] in
  markAsRead "a" (markAsRead "a" s) = markAsRead "a" s
  /\ refs (deleteNotification "zz" s) = [0; 1]
  /\ contents (deleteNotification "zz" s) = contents s.
Proof.
  intros s.
  destruct (markAsRead_delete_idempotent "a" s) as (H1 & _).
  destruct (markAsRead_delete_idempotent "zz" s) as (_ & H2 & _).
  split; [exact H1|].
  destruct H2 as (Hr & _ & Hc).
  - repeat constructor; by eexists.
  - repeat constructor; by vm_compute.
  - split; [exact Hr | exact Hc].
Defined.

Example markAsRead_delete_example :
  let s := service_with PermDefault
             [sample_notification "a" None false [];
              sample_notification "b" None false []] [] in
  map Notification.isRead (contents (markAsRead "b" s)) = [false; true]
  /\ map Notification.isRead (contents (markAsRead "b" (markAsRead "b" s)))
     = [false; true]
  /\ map Notification.id (contents (deleteNotification "a" s)) = ["b"]
  /\ map Notification.id (contents (deleteNotification "zz" s)) = ["a"; "b"].
Proof. by vm_compute. Qed.

(** ** The [limit] and [isRead] filters (claim C10) *)

(** C10: a [limit] of 0 is ignored: the query returns what it returns without
    a limit, so with no other filter every notification held; an [isRead]
    filter of [false] is applied: exactly the unread notifications are
    returned. *)
Theorem limit_zero_ignored_isRead_false_honored (userId : string) (f : Filters)
    (s : Service) :
  let q0 := getNotifications userId (Some (with_limit (Some 0%Z) f)) s in
  let q := getNotifications userId (Some (with_limit None f)) s in
  let q1 := getNotifications userId (Some (with_limit (Some 0%Z) no_filters)) s in
  let q2 := getNotifications userId (Some (only_isRead false)) s in
  q0 = q
  /\ array_at q1.2 q1.1 = refs s
  /\ array_at q2.2 q2.1 =
     List.filter (holds s (fun n => negb (Notification.isRead n))) (refs s)
  /\ omap (fun l => objects s !! l) (array_at q2.2 q2.1)
     = filter (fun n => Notification.isRead n = false) (contents s).
Proof.
  intros q0 q q1 q2.
  destruct (getNotifications_elements userId
              (Some (with_limit (Some 0%Z) no_filters)) s) as [H1 _].
  destruct (getNotifications_elements userId (Some (only_isRead false)) s) as [H2 _].
  assert (H3 : array_at q2.2 q2.1 =
     List.filter (holds s (fun n => negb (Notification.isRead n))) (refs s)).
  { unfold q2. rewrite H2. unfold query_refs. simpl.
    apply List.filter_ext. intros l. unfold holds.
    destruct (objects s !! l) as [n|]; [|done]. by destruct (Notification.isRead n). }
  repeat match goal with |- _ /\ _ => split end; try done.
  rewrite H3, omap_filter_holds. apply filter_bool_prop.
  intros n. by destruct (Notification.isRead n).
Qed.

Example limit_examples :
  let s := service_with PermDefault
             [sample_notification "a" None false [];
              sample_notification "b" None true [];
              sample_notification "c" None false []] [] in
  let result f := let q := getNotifications "farmer-1" (Some f) s in array_at q.2 q.1 in
  result (with_limit (Some 0%Z) no_filters) = [0; 1; 2]
  /\ result (with_limit (Some 1%Z) no_filters) = [0]
  /\ result (with_limit (Some 0%Z) (only_isRead false)) = [0; 2]
  /\ result (only_isRead false) = [0; 2]
  /\ result (only_isRead true) = [1].
Proof. by vm_compute. Qed.

(** ** What a caller can do with a query result (claim C9) *)

Lemma slice0_subseteq (k : Z) (xs : list nat) : slice0 k xs ⊆ xs.
Proof. unfold slice0. destruct (k <? 0)%Z; apply subseteq_take. Qed.

Lemma filter_subseteq (p : nat -> bool) (xs : list nat) : List.filter p xs ⊆ xs.
Proof.
  intros x Hx. apply list_elem_of_In. apply list_elem_of_In in Hx.
  by apply filter_In in Hx as [? _].
Qed.

Lemma query_refs_subseteq (filters : option Filters) (s : Service) :
  query_refs filters s ⊆ refs s.
Proof.
  unfold query_refs.
  destruct (truthy_number _); [etrans; [apply slice0_subseteq|]|];
    (destruct (filters ≫= f_isRead); [etrans; [apply filter_subseteq|]|]);
    (destruct (truthy_string (filters ≫= f_category));
       [etrans; [apply filter_subseteq|]|]);
    (destruct (truthy_string (filters ≫= f_type)); [apply filter_subseteq|]);
    done.
Qed.

(** C9 (as amended): with [this.notifications] denoting an array, a query
    returns a reference to an array that did not exist before the call (so it
    is not [this.notifications] nor the result of an earlier query) and
    leaves the store as it was; whatever the caller then does to that array,
    the store holds the same references and the same records.  The elements
    of the array are the store's own notification objects. *)
Theorem query_returns_fresh_array (userId : string) (filters : option Filters)
    (s : Service) :
  has_store s ->
  let q := getNotifications userId filters s in
  (q.1 ∉ dom (arrays s))
  /\ q.1 <> notifications s
  /\ refs q.2 = refs s
  /\ objects q.2 = objects s
  /\ array_at q.2 q.1 ⊆ refs s
  /\ forall xs, refs (apply_mutation q.1 (ArrayWrite xs) q.2) = refs s
                /\ query_isolated userId filters (ArrayWrite xs) s.
Proof.
  intros Hs q. apply elem_of_dom in Hs.
  destruct (getNotifications_result userId filters s) as (He & Hf & Ha).
  fold q in He, Hf, Ha.
  assert (Hne : q.1 <> notifications s) by (intros E; apply Hf; by rewrite E).
  assert (Hr : refs q.2 = refs s) by by apply extends_refs.
  assert (Ho : objects q.2 = objects s) by apply He.
  assert (Hw : forall xs, refs (apply_mutation q.1 (ArrayWrite xs) q.2) = refs s).
  { intros xs. rewrite <- Hr. unfold refs, array_at. simpl.
    destruct He as (_ & (Hn & _) & _). simpl in Hn.
    rewrite lookup_insert_ne; [done|]. by rewrite Hn. }
  repeat match goal with |- _ /\ _ => split end; try done.
  - unfold array_at. rewrite Ha. apply query_refs_subseteq.
  - intros xs. split; [apply Hw|].
    unfold query_isolated. fold q. unfold contents. rewrite Hw.
    simpl. by rewrite Ho.
Qed.

Lemma query_returns_fresh_array_witness :
  let s := service_with PermDefault
             [sample_notification "a" None false [];
              sample_notification "b" None true []] [] in
  let q := getNotifications "farmer-1" (Some (only_isRead false)) s in
  (q.1 ∉ dom (arrays s))
  /\ q.1 <> notifications s
  /\ refs q.2 = refs s
  /\ objects q.2 = objects s
  /\ array_at q.2 q.1 ⊆ refs s
  /\ forall xs, refs (apply_mutation q.1 (ArrayWrite xs) q.2) = refs s
                /\ query_isolated "farmer-1" (Some (only_isRead false))
                     (ArrayWrite xs) s.
Proof.
  intros s.
  apply (query_returns_fresh_array "farmer-1" (Some (only_isRead false)) s).
  by eexists.
Defined.

(** C9 (as stated) fails: the array returned holds the store's own objects,
    so marking the first element of the result read marks the store's
    notification read. *)
Lemma query_result_shares_records :
  let s := service_with PermDefault [sample_notification "a" None false []] [] in
  ~ query_isolated "farmer-1" None (RecordWrite 0 (with_isRead true)) s.
Proof. intros s H. vm_compute in H. discriminate H. Qed.

Example query_result_shares_records_count :
  let s := service_with PermDefault [sample_notification "a" None false []] [] in
  let q := getNotifications "farmer-1" None s in
  getUnreadCount "farmer-1" q.2 = 1
  /\ getUnreadCount "farmer-1" (apply_mutation q.1 (RecordWrite 0 (with_isRead true)) q.2)
     = 0.
Proof. by vm_compute. Qed.

(** ** Well-formed states

    The hypotheses [has_store] and [no_dangling] used above hold of the
    service after construction and are kept by every operation. *)

Lemma has_store_same_platform s s' : same_platform s s' -> has_store s -> has_store s'.
Proof. intros (Hn & Ha & _). unfold has_store. by rewrite Hn, Ha. Qed.

Lemma has_store_save s : has_store s -> has_store (saveNotificationsToStorage s).
Proof. unfold saveNotificationsToStorage. by destruct (storageWritable s). Qed.

Lemma has_store_sendNotification l now s : has_store (sendNotification l now s).
Proof.
  unfold sendNotification. apply has_store_save.
  eapply has_store_same_platform; [apply deliver_channels_platform|].
  unfold limit_size. destruct (100 <? length (refs (unshift l s)))%nat.
  - unfold has_store. simpl. rewrite lookup_insert_eq. by eexists.
  - unfold has_store. simpl. rewrite lookup_insert_eq. by eexists.
Qed.

Lemma has_store_array_filter p s :
  let r := array_filter p (notifications s) s in
  has_store (saveNotificationsToStorage (set_notifications r.1 r.2)).
Proof.
  simpl. apply has_store_save. unfold has_store. simpl.
  rewrite lookup_insert_eq. by eexists.
Qed.

Lemma no_dangling_filter p s s' :
  refs s' = List.filter p (refs s) -> objects s' = objects s ->
  no_dangling s -> no_dangling s'.
Proof.
  unfold no_dangling. intros -> ->. rewrite !Forall_forall.
  intros H l Hl. apply H. by apply (filter_subseteq p).
Qed.

Lemma well_formed_deleteNotification id s :
  well_formed s -> well_formed (deleteNotification id s).
Proof.
  intros [_ Hd]. split; [apply has_store_array_filter|].
  destruct (deleteNotification_refs id s) as [Hr Ho].
  by eapply no_dangling_filter.
Qed.

Lemma well_formed_cleanup now s : well_formed s -> well_formed (cleanup now s).
Proof.
  intros [_ Hd]. split; [apply has_store_array_filter|].
  destruct (cleanup_refs now s) as [Hr Ho].
  by eapply no_dangling_filter.
Qed.

Lemma well_formed_markAllAsRead userId s :
  well_formed s -> well_formed (markAllAsRead userId s).
Proof.
  intros [Hs Hd]. split.
  - unfold markAllAsRead. apply has_store_save.
    eapply has_store_same_platform; [apply fold_mark_read_frame|done].
  - unfold no_dangling in *.
    rewrite (proj1 (contents_markAllAsRead userId s)).
    eapply Forall_impl; [exact Hd|]. intros l [n Hn]. simpl in *.
    unfold markAllAsRead. rewrite objects_save, fold_mark_read_lookup, Hn.
    case_decide; by eexists.
Qed.

Lemma well_formed_markAsRead id s : well_formed s -> well_formed (markAsRead id s).
Proof.
  intros [Hs Hd]. unfold markAsRead. destruct (List.find _ _) as [l|]; [|done].
  split; [by apply has_store_save|].
  unfold no_dangling in *. rewrite refs_save, objects_save.
  eapply Forall_impl; [exact Hd|]. intros r Hr. simpl in *.
  by apply lookup_alter_is_Some.
Qed.

Lemma well_formed_sendNotification l now s :
  is_Some (objects s !! l) -> well_formed s -> well_formed (sendNotification l now s).
Proof.
  intros [n Hn] [_ Hd]. split; [apply has_store_sendNotification|].
  unfold no_dangling in *.
  rewrite refs_sendNotification, (objects_sendNotification l now s n Hn).
  apply Forall_take. constructor.
  - rewrite lookup_insert_eq. by eexists.
  - eapply Forall_impl; [exact Hd|]. intros r Hr. simpl in *.
    apply lookup_insert_is_Some'. by right.
Qed.

Lemma well_formed_createNotificationFromPriceAlert numberToString alert now s :
  well_formed s ->
  well_formed (createNotificationFromPriceAlert numberToString alert now s).
Proof.
  intros [Hs Hd]. unfold createNotificationFromPriceAlert.
  destruct (alloc_object _ s) as [l s1] eqn:E.
  assert (E1 : s1 = set_objects (<[l := price_notification numberToString alert now]>
                                   (objects s)) s)
    by (unfold alloc_object in E; by injection E as <- <-).
  apply well_formed_sendNotification.
  - rewrite E1. simpl. rewrite lookup_insert_eq. by eexists.
  - rewrite E1. split; [done|]. unfold no_dangling in *.
    eapply Forall_impl; [exact Hd|]. intros r Hr. simpl in *.
    apply lookup_insert_is_Some'. by right.
Qed.

Lemma well_formed_initial perm held extra : well_formed (service_with perm held extra).
Proof.
  split; [by eexists|]. unfold no_dangling, refs, array_at. simpl.
  rewrite lookup_singleton_eq. simpl. apply Forall_forall. intros l Hl.
  apply list_elem_of_In, in_seq in Hl. rewrite lookup_map_seq_0.
  apply lookup_lt_is_Some. rewrite length_app. lia.
Qed.

(** * Further properties *)

(** ** The delivery loop, entry by entry *)

Lemma platform_notification_channels cs n :
  platform_notification (with_deliveryChannels cs n) = platform_notification n.
Proof. done. Qed.

Lemma deliverThroughChannel_displayed (l i : nat) (now : Z) (s : Service)
    (n : Notification.t) (c : DeliveryChannel.t) :
  objects s !! l = Some n ->
  Notification.deliveryChannels n !! i = Some c ->
  DeliveryChannel.enabled c = true ->
  displayed (deliverThroughChannel l i now s) = (displayed s ++ shown s n c)%list.
Proof.
  intros Hn Hc He. unfold deliverThroughChannel, shown, sendPushNotification.
  rewrite Hn, Hc, He. simpl.
  destruct (DeliveryChannel.channel c); simpl; try by rewrite app_nil_r.
  destruct (notificationPermission s); simpl; try by rewrite app_nil_r.
  destruct (constructorError s); simpl; [by rewrite app_nil_r|done].
Qed.

Lemma shown_platform s s' cs n c :
  same_platform s s' -> shown s' (with_deliveryChannels cs n) c = shown s n c.
Proof. intros (_&_&Hp&He&_). unfold shown. by rewrite Hp, He. Qed.

Lemma deliver_step_spec (l : nat) (now : Z) (s : Service) (n : Notification.t)
    (k : nat) (sk : Service) (c : DeliveryChannel.t) :
  objects s !! l = Some n ->
  Notification.deliveryChannels n !! k = Some c ->
  same_platform s sk ->
  objects sk =
    <[l := with_deliveryChannels
             (dispatched (dispatch_outcome s now) k (Notification.deliveryChannels n)) n]>
      (objects s) ->
  let sk' := deliver_if_enabled l now sk k in
  same_platform s sk'
  /\ objects sk' =
     <[l := with_deliveryChannels
              (dispatched (dispatch_outcome s now) (S k) (Notification.deliveryChannels n)) n]>
       (objects s)
  /\ displayed sk' = (displayed sk ++ shown s n c)%list.
Proof.
  intros Hn Hc Hp Ho.
  assert (Hlk : objects sk !! l = Some (with_deliveryChannels
             (dispatched (dispatch_outcome s now) k (Notification.deliveryChannels n)) n))
    by (rewrite Ho; apply lookup_insert_eq).
  assert (Hck : Notification.deliveryChannels (with_deliveryChannels
             (dispatched (dispatch_outcome s now) k (Notification.deliveryChannels n)) n)
             !! k = Some c)
    by (simpl; by rewrite dispatched_lookup).
  simpl. unfold deliver_if_enabled, channel_at. rewrite Hlk, Hck.
  rewrite (dispatched_S _ _ _ _ Hc).
  assert (Hdo : dispatch_outcome s now c
                = if DeliveryChannel.enabled c then attempt_outcome s now c else c)
    by done.
  rewrite Hdo. clear Hdo.
  destruct (DeliveryChannel.enabled c) eqn:He.
  - destruct (deliverThroughChannel_spec l k now sk _ c Hlk Hck) as [Hp' Ho'].
    split; [by eapply same_platform_trans|]. split.
    + rewrite Ho', Ho, insert_insert_eq, with_deliveryChannels_twice.
      rewrite (attempt_outcome_platform s sk); done.
    + rewrite (deliverThroughChannel_displayed l k now sk _ c Hlk Hck He).
      by rewrite (shown_platform s sk).
  - split; [done|]. split.
    + rewrite Ho. f_equal. f_equal. symmetry. apply list_insert_id.
      by rewrite dispatched_lookup.
    + unfold shown. rewrite He. by rewrite app_nil_r.
Qed.

Lemma deliver_loop_displayed (l : nat) (now : Z) (s : Service) (n : Notification.t) :
  objects s !! l = Some n ->
  forall (m k : nat) (sk : Service),
    k + m = length (Notification.deliveryChannels n) ->
    same_platform s sk ->
    objects sk =
      <[l := with_deliveryChannels
               (dispatched (dispatch_outcome s now) k (Notification.deliveryChannels n)) n]>
        (objects s) ->
    displayed (fold_left (deliver_if_enabled l now) (seq k m) sk)
    = (displayed sk
       ++ flat_map (shown s n) (drop k (Notification.deliveryChannels n)))%list.
Proof.
  intros Hn. induction m as [|m IH]; intros k sk Hlen Hp Ho; simpl.
  - rewrite drop_ge by lia. simpl. by rewrite app_nil_r.
  - assert (Hk : k < length (Notification.deliveryChannels n)) by lia.
    destruct (lookup_lt_is_Some_2 _ _ Hk) as [c Hc].
    destruct (deliver_step_spec l now s n k sk c Hn Hc Hp Ho) as (Hp' & Ho' & Hd').
    rewrite (IH (S k) _ ltac:(lia) Hp' Ho'), Hd', (drop_S _ _ _ Hc).
    simpl. by rewrite <- app_assoc.
Qed.

Lemma shown_ext s s' n c :
  notificationPermission s' = notificationPermission s ->
  constructorError s' = constructorError s ->
  shown s' n c = shown s n c.
Proof. intros Hp He. unfold shown. by rewrite Hp, He. Qed.

(** The platform notifications a call of [sendNotification] shows: one per
    turn of the delivery loop that reaches [new Notification]. *)
Lemma displayed_sendNotification_all (l : nat) (now : Z) (s : Service)
    (n : Notification.t) :
  objects s !! l = Some n ->
  displayed (sendNotification l now s)
  = (displayed s ++ flat_map (shown s n) (Notification.deliveryChannels n))%list.
Proof.
  intros Hn. unfold sendNotification. rewrite displayed_save.
  set (s1 := limit_size (unshift l s)).
  destruct (limit_size_platform (unshift l s)) as (Hp & He & Hd).
  assert (Ho : objects s1 = objects s) by (unfold s1; by rewrite objects_limit_size).
  assert (Hn1 : objects s1 !! l = Some n) by by rewrite Ho.
  unfold deliver_channels. rewrite Hn1.
  rewrite (deliver_loop_displayed l now s1 n Hn1 _ 0 s1);
    [| lia | apply same_platform_refl |].
  - rewrite drop_0. fold s1 in Hd. rewrite Hd. simpl. f_equal.
    apply flat_map_ext. intros c. by apply shown_ext.
  - unfold dispatched. rewrite take_0, drop_0. simpl.
    symmetry. apply insert_id. rewrite Hn1. by destruct n.
Qed.

Lemma save_flags (s : Service) :
  notificationPermission (saveNotificationsToStorage s) = notificationPermission s
  /\ constructorError (saveNotificationsToStorage s) = constructorError s
  /\ storageWritable (saveNotificationsToStorage s) = storageWritable s.
Proof.
  unfold saveNotificationsToStorage.
  destruct (storageWritable s) eqn:E; simpl; by rewrite ?E.
Qed.

Lemma sendNotification_permission (l : nat) (now : Z) (s : Service) :
  notificationPermission (sendNotification l now s) = notificationPermission s
  /\ constructorError (sendNotification l now s) = constructorError s
  /\ storageWritable (sendNotification l now s) = storageWritable s.
Proof.
  unfold sendNotification.
  set (s1 := limit_size (unshift l s)).
  destruct (deliver_channels_platform l now s1) as (_ & _ & Hp & He & _ & Hw).
  assert (H1 : notificationPermission s1 = notificationPermission s
               /\ constructorError s1 = constructorError s
               /\ storageWritable s1 = storageWritable s).
  { unfold s1, limit_size. by destruct (100 <? length (refs (unshift l s)))%nat. }
  destruct H1 as (H1 & H2 & H3).
  destruct (save_flags (deliver_channels l now s1)) as (-> & -> & ->).
  by rewrite Hp, He, Hw, H1, H2, H3.
Qed.

(** X1: [sendNotification] writes nothing but the delivery entries of the
    notification it is given: every other object is untouched, the
    notification keeps all its other fields, its entries keep their number,
    order, channel and [enabled] flag, and an entry that is not enabled is
    left exactly as it was. *)
Theorem dispatch_writes_only_enabled_entries (l : nat) (now : Z) (s : Service)
    (n : Notification.t) :
  objects s !! l = Some n ->
  exists cs,
    objects (sendNotification l now s) = <[l := with_deliveryChannels cs n]> (objects s)
    /\ map DeliveryChannel.channel cs
       = map DeliveryChannel.channel (Notification.deliveryChannels n)
    /\ map DeliveryChannel.enabled cs
       = map DeliveryChannel.enabled (Notification.deliveryChannels n)
    /\ Forall2 (fun c c' => DeliveryChannel.enabled c = false -> c' = c)
               (Notification.deliveryChannels n) cs.
Proof.
  intros Hn. exists (map (dispatch_outcome s now) (Notification.deliveryChannels n)).
  split; [by apply objects_sendNotification|].
  assert (Hc : forall c, DeliveryChannel.channel (dispatch_outcome s now c)
                         = DeliveryChannel.channel c
                         /\ DeliveryChannel.enabled (dispatch_outcome s now c)
                            = DeliveryChannel.enabled c).
  { intros c. unfold dispatch_outcome.
    destruct (DeliveryChannel.enabled c) eqn:E; [|done].
    unfold attempt_outcome.
    destruct (DeliveryChannel.channel c) eqn:E', (notificationPermission s),
      (constructorError s); simpl; by rewrite E, E'. }
  rewrite !map_map. repeat split.
  - apply map_ext. intros c. apply Hc.
  - apply map_ext. intros c. apply Hc.
  - apply Forall2_fmap_r, Forall_Forall2_diag, Forall_forall.
    intros c _ He. unfold dispatch_outcome. by rewrite He.
Qed.

Lemma dispatch_writes_only_enabled_entries_witness :
  let n := sample_notification "n1" None false
             [DeliveryChannel.mk Push false false None None; new_channel InApp] in
  let s := service_with PermGranted [] [n] in
  exists cs,
    objects (sendNotification 0 2000 s) = <[0 := with_deliveryChannels cs n]> (objects s)
    /\ map DeliveryChannel.channel cs = [Push; InApp]
    /\ map DeliveryChannel.enabled cs = [false; true]
    /\ Forall2 (fun c c' => DeliveryChannel.enabled c = false -> c' = c)
               (Notification.deliveryChannels n) cs.
Proof.
  intros n s. apply (dispatch_writes_only_enabled_entries 0 2000 s n). done.
Defined.

Lemma flat_map_shown_granted (s : Service) (n : Notification.t)
    (cs : list DeliveryChannel.t) :
  notificationPermission s = PermGranted ->
  constructorError s = None ->
  flat_map (shown s n) cs
  = replicate (length (List.filter enabled_push cs)) (platform_notification n).
Proof.
  intros Hp He. induction cs as [|c cs IH]; [done|]. simpl. rewrite IH.
  unfold shown, enabled_push. rewrite Hp, He.
  by destruct (DeliveryChannel.enabled c), (DeliveryChannel.channel c).
Qed.

Lemma flat_map_shown_silent (s : Service) (n : Notification.t)
    (cs : list DeliveryChannel.t) :
  notificationPermission s <> PermGranted \/ is_Some (constructorError s) ->
  flat_map (shown s n) cs = [].
Proof.
  intros H. induction cs as [|c cs IH]; [done|]. simpl. rewrite IH, app_nil_r.
  unfold shown.
  destruct (DeliveryChannel.enabled c), (DeliveryChannel.channel c); try done.
  destruct H as [H|[msg H]].
  - by destruct (notificationPermission s).
  - rewrite H. by destruct (notificationPermission s).
Qed.

(** X2: with push permission granted and a working [Notification]
    constructor, [sendNotification] shows one platform notification per
    enabled push entry, carrying the notification's title, message (as body),
    id (as tag) and action URL, and requiring interaction exactly when the
    priority is "critical"; every enabled entry, of whatever channel, ends
    delivered at the time of the call. *)
Theorem granted_push_is_shown (l : nat) (now : Z) (s : Service)
    (n : Notification.t) :
  objects s !! l = Some n ->
  notificationPermission s = PermGranted ->
  constructorError s = None ->
  displayed (sendNotification l now s)
  = (displayed s
     ++ replicate
          (length (List.filter enabled_push (Notification.deliveryChannels n)))
          {| pn_title := Notification.title n;
             pn_body := Notification.message n;
             pn_tag := Notification.id n;
             pn_requireInteraction :=
               match Notification.priority n with Critical => true | _ => false end;
             pn_url := Notification.actionUrl n |})%list
  /\ exists cs,
       objects (sendNotification l now s) !! l = Some (with_deliveryChannels cs n)
       /\ Forall2 (fun c c' => DeliveryChannel.enabled c = true ->
                               c' = mark_delivered now c)
                  (Notification.deliveryChannels n) cs.
Proof.
  intros Hn Hp He. split.
  - rewrite (displayed_sendNotification_all l now s n Hn).
    by rewrite (flat_map_shown_granted s n _ Hp He).
  - exists (map (dispatch_outcome s now) (Notification.deliveryChannels n)).
    split; [by rewrite (objects_sendNotification l now s n Hn), lookup_insert_eq|].
    apply Forall2_fmap_r, Forall_Forall2_diag, Forall_forall.
    intros c _ Hen. unfold dispatch_outcome, attempt_outcome. rewrite Hen, Hp, He.
    by destruct (DeliveryChannel.channel c).
Qed.

Lemma granted_push_is_shown_witness :
  let n := sample_notification "n1" None false [new_channel Push; new_channel InApp] in
  let s := service_with PermGranted [] [n] in
  displayed (sendNotification 0 2000 s)
  = [ {| pn_title := "title"; pn_body := "message"; pn_tag := "n1";
         pn_requireInteraction := false; pn_url := None |} ]
  /\ exists cs,
       objects (sendNotification 0 2000 s) !! 0 = Some (with_deliveryChannels cs n)
       /\ Forall2 (fun c c' => DeliveryChannel.enabled c = true ->
                               c' = mark_delivered 2000 c)
                  (Notification.deliveryChannels n) cs.
Proof.
  intros n s. apply (granted_push_is_shown 0 2000 s n); done.
Defined.

(** X3: when [new Notification] throws, the push entry records the error
    message and keeps its [delivered] and [deliveredAt] as they were, nothing
    is shown, and the exception stops at that entry: every other enabled
    entry, before or after it, still ends delivered. *)
Theorem throwing_push_records_error (l : nat) (now : Z) (s : Service)
    (n : Notification.t) (msg : string) :
  objects s !! l = Some n ->
  notificationPermission s = PermGranted ->
  constructorError s = Some msg ->
  displayed (sendNotification l now s) = displayed s
  /\ exists cs,
       objects (sendNotification l now s) !! l = Some (with_deliveryChannels cs n)
       /\ Forall2 (fun c c' =>
                     DeliveryChannel.enabled c = true ->
                     if enabled_push c
                     then c' = DeliveryChannel.mk Push true
                                 (DeliveryChannel.delivered c)
                                 (DeliveryChannel.deliveredAt c) (Some msg)
                     else c' = mark_delivered now c)
                  (Notification.deliveryChannels n) cs.
Proof.
  intros Hn Hp He. split.
  - rewrite (displayed_sendNotification_all l now s n Hn), flat_map_shown_silent.
    + apply app_nil_r.
    + right. by eexists.
  - exists (map (dispatch_outcome s now) (Notification.deliveryChannels n)).
    split; [by rewrite (objects_sendNotification l now s n Hn), lookup_insert_eq|].
    apply Forall2_fmap_r, Forall_Forall2_diag, Forall_forall.
    intros c _ Hen. unfold dispatch_outcome, attempt_outcome, enabled_push, mark_error.
    rewrite Hen, Hp, He.
    destruct (DeliveryChannel.channel c) eqn:E; simpl; done.
Qed.

Lemma throwing_push_records_error_witness :
  let n := sample_notification "n1" None false [new_channel Push; new_channel InApp] in
  let s := {| notifications := 0; notificationPermission := PermGranted;
              arrays := {[ 0 := [] ]}; objects := {[ 0 := n ]};
              storedNotifications := None; storageWritable := true;
              displayed := []; constructorError := Some "Illegal constructor" |} in
  displayed (sendNotification 0 2000 s) = []
  /\ exists cs,
       objects (sendNotification 0 2000 s) !! 0 = Some (with_deliveryChannels cs n)
       /\ Forall2 (fun c c' =>
                     DeliveryChannel.enabled c = true ->
                     if enabled_push c
                     then c' = DeliveryChannel.mk Push true
                                 (DeliveryChannel.delivered c)
                                 (DeliveryChannel.deliveredAt c)
                                 (Some "Illegal constructor")
                     else c' = mark_delivered 2000 c)
                  (Notification.deliveryChannels n) cs.
Proof.
  intros n s. apply (throwing_push_records_error 0 2000 s n "Illegal constructor"); done.
Defined.

Example throwing_push_example :
  let n := sample_notification "n1" None false [new_channel InApp; new_channel Push] in
  let s := {| notifications := 0; notificationPermission := PermGranted;
              arrays := {[ 0 := [] ]}; objects := {[ 0 := n ]};
              storedNotifications := None; storageWritable := true;
              displayed := []; constructorError := Some "Illegal constructor" |} in
  Notification.deliveryChannels <$> objects (sendNotification 0 2000 s) !! 0
  = Some [ DeliveryChannel.mk InApp true true (Some 2000%Z) None;
           DeliveryChannel.mk Push true false None (Some "Illegal constructor") ].
Proof. by vm_compute. Qed.

(** ** Persistence *)

Lemma omap_take_no_dangling (s : Service) (k : nat) (ls : list nat) :
  Forall (fun l => is_Some (objects s !! l)) ls ->
  omap (fun l => objects s !! l) (take k ls)
  = take k (omap (fun l => objects s !! l) ls).
Proof.
  intros H. revert k. induction H as [|l ls [n Hn] _ IH]; intros k.
  - by destruct k.
  - destruct k as [|k]; [done|]. simpl. rewrite Hn. simpl. f_equal. apply IH.
Qed.

Lemma stored_save (s : Service) :
  no_dangling s -> storageWritable s = true ->
  storedNotifications (saveNotificationsToStorage s)
  = Some (take 50 (contents (saveNotificationsToStorage s))).
Proof.
  intros Hd Hw. unfold contents. rewrite refs_save, objects_save.
  unfold saveNotificationsToStorage. rewrite Hw.
  cbn [storedNotifications set_storedNotifications]. f_equal.
  by apply omap_take_no_dangling.
Qed.

Lemma no_dangling_unsave (s : Service) :
  no_dangling (saveNotificationsToStorage s) -> no_dangling s.
Proof. unfold no_dangling. by rewrite refs_save, objects_save. Qed.

(** X4: after a mutation of a well-formed service whose storage accepts
    writes, the stored copy is the list of the 50 most recent records of the
    store as the mutation leaves them (delivery outcomes and read marks
    included); [markAsRead] of an identifier that is not found writes
    nothing. *)
Theorem stored_copy_is_the_50_most_recent (s : Service) (l : nat) (now : Z)
    (id userId : string) :
  well_formed s ->
  storageWritable s = true ->
  is_Some (objects s !! l) ->
  let persisted s' := storedNotifications s' = Some (take 50 (contents s')) in
  persisted (sendNotification l now s)
  /\ persisted (markAllAsRead userId s)
  /\ persisted (deleteNotification id s)
  /\ persisted (cleanup now s)
  /\ (persisted (markAsRead id s) \/ markAsRead id s = s).
Proof.
  intros Hwf Hw Hl persisted. unfold persisted.
  repeat match goal with |- _ /\ _ => split end.
  - pose proof (well_formed_sendNotification l now s Hl Hwf) as [_ Hd].
    unfold sendNotification in *. apply stored_save; [by apply no_dangling_unsave|].
    destruct (deliver_channels_platform l now (limit_size (unshift l s)))
      as (_ & _ & _ & _ & _ & ->).
    unfold limit_size. by destruct (100 <? length (refs (unshift l s)))%nat.
  - pose proof (well_formed_markAllAsRead userId s Hwf) as [_ Hd].
    unfold markAllAsRead in *. apply stored_save; [by apply no_dangling_unsave|].
    by destruct (fold_mark_read_frame (refs s) s) as ((_ & _ & _ & _ & _ & ->) & _).
  - pose proof (well_formed_deleteNotification id s Hwf) as [_ Hd].
    unfold deleteNotification, array_filter in *. simpl in *.
    apply stored_save; [by apply no_dangling_unsave|done].
  - pose proof (well_formed_cleanup now s Hwf) as [_ Hd].
    unfold cleanup, array_filter in *. simpl in *.
    apply stored_save; [by apply no_dangling_unsave|done].
  - pose proof (well_formed_markAsRead id s Hwf) as [_ Hd].
    unfold markAsRead in *. destruct (List.find _ _); [left|by right].
    apply stored_save; [by apply no_dangling_unsave|done].
Qed.

Lemma stored_copy_witness :
  let s := service_with PermDefault
             [sample_notification "a" None false [new_channel InApp];
              sample_notification "b" None false []]
             [sample_notification "c" None false [new_channel InApp]] in
  let persisted s' := storedNotifications s' = Some (take 50 (contents s')) in
  persisted (sendNotification 2 2000 s)
  /\ persisted (markAllAsRead "farmer-1" s)
  /\ persisted (deleteNotification "a" s)
  /\ persisted (cleanup 2000 s)
  /\ (persisted (markAsRead "a" s) \/ markAsRead "a" s = s).
Proof.
  intros s.
  apply (stored_copy_is_the_50_most_recent s 2 2000 "a" "farmer-1").
  - apply well_formed_initial.
  - reflexivity.
  - by eexists.
Defined.

Lemma memory_save (s : Service) : memory (saveNotificationsToStorage s) = memory s.
Proof. unfold saveNotificationsToStorage. by destruct (storageWritable s). Qed.

Lemma memory_with_storage st w (s : Service) : memory (with_storage st w s) = memory s.
Proof. done. Qed.

Lemma stored_save_refused (s : Service) :
  storageWritable s = false ->
  storedNotifications (saveNotificationsToStorage s) = storedNotifications s.
Proof. intros H. unfold saveNotificationsToStorage. by rewrite H. Qed.

Lemma deliverThroughChannel_storage st w l i now (s : Service) :
  deliverThroughChannel l i now (with_storage st w s)
  = with_storage st w (deliverThroughChannel l i now s).
Proof.
  unfold deliverThroughChannel, sendPushNotification. simpl.
  destruct (objects s !! l) as [n|]; [|done].
  destruct (Notification.deliveryChannels n !! i) as [c|]; [|done].
  destruct (DeliveryChannel.channel c); try done.
  destruct (notificationPermission s); try done.
  by destruct (constructorError s).
Qed.

Lemma deliver_loop_storage st w l now (ixs : list nat) (s : Service) :
  fold_left (deliver_if_enabled l now) ixs (with_storage st w s)
  = with_storage st w (fold_left (deliver_if_enabled l now) ixs s).
Proof.
  revert s. induction ixs as [|i ixs IH]; intros s; [done|]. simpl.
  rewrite <- IH. f_equal. unfold deliver_if_enabled.
  change (channel_at (with_storage st w s) l i) with (channel_at s l i).
  destruct (channel_at s l i) as [c|]; [|done].
  destruct (DeliveryChannel.enabled c); [|done].
  apply deliverThroughChannel_storage.
Qed.

Lemma limit_size_storage st w (s : Service) :
  limit_size (with_storage st w s) = with_storage st w (limit_size s).
Proof.
  unfold limit_size. change (refs (with_storage st w s)) with (refs s).
  by destruct (100 <? length (refs s))%nat.
Qed.

Lemma fold_mark_read_storage st w (ls : list nat) (s : Service) :
  fold_left mark_read ls (with_storage st w s)
  = with_storage st w (fold_left mark_read ls s).
Proof. revert s. induction ls as [|l ls IH]; intros s; [done|]. simpl. by rewrite <- IH. Qed.

(** X5: what a mutation does to the notifications in memory (and to the
    screen) does not depend on the storage behind the service: the result is
    the same whatever is stored and whether or not the write is accepted.  A
    refused write is swallowed and leaves the stored copy as it was. *)
Theorem storage_failure_is_swallowed (st : option (list Notification.t))
    (w : bool) (s : Service) (l : nat) (now : Z) (id userId : string) :
  (memory (sendNotification l now (with_storage st w s))
     = memory (sendNotification l now s)
   /\ memory (markAsRead id (with_storage st w s)) = memory (markAsRead id s)
   /\ memory (markAllAsRead userId (with_storage st w s))
      = memory (markAllAsRead userId s)
   /\ memory (deleteNotification id (with_storage st w s))
      = memory (deleteNotification id s)
   /\ memory (cleanup now (with_storage st w s)) = memory (cleanup now s))
  /\ (storedNotifications (sendNotification l now (with_storage st false s)) = st
      /\ storedNotifications (markAsRead id (with_storage st false s)) = st
      /\ storedNotifications (markAllAsRead userId (with_storage st false s)) = st
      /\ storedNotifications (deleteNotification id (with_storage st false s)) = st
      /\ storedNotifications (cleanup now (with_storage st false s)) = st).
Proof.
  assert (Hsend : forall w', deliver_channels l now (limit_size (unshift l (with_storage st w' s)))
                  = with_storage st w' (deliver_channels l now (limit_size (unshift l s)))).
  { intros w'. change (unshift l (with_storage st w' s)) with (with_storage st w' (unshift l s)).
    rewrite limit_size_storage. unfold deliver_channels. simpl.
    destruct (objects (limit_size (unshift l s)) !! l); [|done].
    apply deliver_loop_storage. }
  assert (Hmark : forall w', markAsRead id (with_storage st w' s)
                  = match List.find (holds s (fun n => String.eqb (Notification.id n) id))
                                    (refs s) with
                    | Some l' => saveNotificationsToStorage
                                   (with_storage st w' (mark_read s l'))
                    | None => with_storage st w' s
                    end) by done.
  split; repeat match goal with |- _ /\ _ => split end.
  - unfold sendNotification. by rewrite !memory_save, Hsend.
  - rewrite Hmark. unfold markAsRead. destruct (List.find _ _); [|done].
    by rewrite !memory_save.
  - unfold markAllAsRead. rewrite !memory_save.
    change (refs (with_storage st w s)) with (refs s).
    by rewrite fold_mark_read_storage.
  - unfold deleteNotification, array_filter. simpl. by rewrite !memory_save.
  - unfold cleanup, array_filter. simpl. by rewrite !memory_save.
  - unfold sendNotification. rewrite Hsend. by rewrite stored_save_refused.
  - rewrite Hmark. destruct (List.find _ _); [|done]. by rewrite stored_save_refused.
  - unfold markAllAsRead. change (refs (with_storage st false s)) with (refs s).
    rewrite fold_mark_read_storage. by rewrite stored_save_refused.
  - reflexivity.
  - reflexivity.
Qed.

(** ** Reloading *)


Lemma length_contents (s : Service) :
  no_dangling s -> length (refs s) = length (contents s).
Proof.
  unfold no_dangling, contents.
  induction 1 as [|l ls [n Hn] _ IH]; simpl; [done|]. rewrite Hn. simpl. by f_equal.
Qed.

Section Reload.

Variable revive : Notification.t -> Notification.t.



End Reload.


(** ** Queries: order, limits and combined filters *)

Lemma query_records_spec (userId : string) (filters : option Filters) (s : Service) :
  query_records userId filters s = query_refs filters s.
Proof. apply getNotifications_elements. Qed.

Lemma sublist_filter_bool {A : Type} (p : A -> bool) (xs : list A) :
  sublist (List.filter p xs) xs.
Proof.
  induction xs as [|x xs IH]; simpl; [constructor|].
  destruct (p x); by constructor.
Qed.

Lemma filter_filter_bool {A : Type} (p q : A -> bool) (xs : list A) :
  List.filter q (List.filter p xs) = List.filter (fun x => p x && q x) xs.
Proof.
  induction xs as [|x xs IH]; [done|]. simpl.
  destruct (p x) eqn:Hp; simpl; [|done]. destruct (q x); by rewrite IH.
Qed.

Lemma holds_and (s : Service) (p q : Notification.t -> bool) (l : nat) :
  holds s p l && holds s q l = holds s (fun n => p n && q n) l.
Proof. unfold holds. by destruct (objects s !! l). Qed.

Lemma Forall_filter_bool {A : Type} (P : A -> Prop) (q : A -> bool) (xs : list A) :
  Forall P xs -> Forall P (List.filter q xs).
Proof.
  rewrite !Forall_forall. intros H x Hx. apply H.
  apply list_elem_of_In. apply list_elem_of_In, filter_In in Hx. tauto.
Qed.

Lemma filter_holds_opt {X : Type} (s : Service) (o : option X)
    (pred : X -> Notification.t -> bool) (xs : list nat) :
  Forall (fun l => is_Some (objects s !! l)) xs ->
  match o with Some x => List.filter (holds s (pred x)) xs | None => xs end
  = List.filter (holds s (fun n => match o with Some x => pred x n | None => true end)) xs.
Proof.
  intros Hd. destruct o; [done|]. symmetry. apply filter_all_true.
  eapply Forall_impl; [exact Hd|]. intros l [n Hn]. unfold holds. by rewrite Hn.
Qed.

Lemma query_refs_unlimited (f : Filters) (s : Service) :
  no_dangling s ->
  query_refs (Some (with_limit None f)) s = List.filter (holds s (matches f)) (refs s).
Proof.
  intros Hd. unfold no_dangling in Hd. unfold query_refs. simpl.
  rewrite (filter_holds_opt s (truthy_string (f_type f))
             (fun ty n => String.eqb (type_string (Notification.type n)) ty)) by done.
  rewrite (filter_holds_opt s (truthy_string (f_category f))
             (fun c n => String.eqb (category_string (Notification.category n)) c))
    by by apply Forall_filter_bool.
  rewrite (filter_holds_opt s (f_isRead f)
             (fun b n => Bool.eqb (Notification.isRead n) b))
    by by do 2 apply Forall_filter_bool.
  rewrite !filter_filter_bool. apply List.filter_ext. intros l.
  rewrite !holds_and. unfold holds, matches.
  destruct (objects s !! l); [apply andb_assoc | done].
Qed.

Lemma slice0_sublist (k : Z) (xs : list nat) : sublist (slice0 k xs) xs.
Proof. unfold slice0. destruct (k <? 0)%Z; apply sublist_take. Qed.

Lemma query_refs_sublist (filters : option Filters) (s : Service) :
  sublist (query_refs filters s) (refs s).
Proof.
  unfold query_refs.
  destruct (truthy_number _); [etrans; [apply slice0_sublist|]|];
    (destruct (filters ≫= f_isRead); [etrans; [apply sublist_filter_bool|]|]);
    (destruct (truthy_string (filters ≫= f_category));
       [etrans; [apply sublist_filter_bool|]|]);
    (destruct (truthy_string (filters ≫= f_type)); [apply sublist_filter_bool|]);
    done.
Qed.

Lemma query_refs_limit (f : Filters) (k : Z) (s : Service) :
  query_refs (Some (with_limit (Some k) f)) s
  = match truthy_number (Some k) with
    | Some k => slice0 k (query_refs (Some (with_limit None f)) s)
    | None => query_refs (Some (with_limit None f)) s
    end.
Proof. done. Qed.

(** X7: a query returns notifications in the order the store holds them
    (most recent first).  A positive [limit] cuts the result of the same
    query without limit down to its first [limit] elements, a negative one
    drops that many elements from its end, and 0 leaves it whole; the
    dashboard's query, [getNotifications('farmer1', { limit: 5 })], returns
    the five most recent notifications. *)
Theorem query_order_and_limit (userId : string) (f : Filters) (k : Z) (s : Service) :
  let all := query_records userId (Some (with_limit None f)) s in
  let part := query_records userId (Some (with_limit (Some k) f)) s in
  sublist all (refs s)
  /\ sublist part all
  /\ part = (if decide (k = 0)%Z then all
             else if decide (k < 0)%Z then take (length all - Z.to_nat (- k)) all
             else take (Z.to_nat k) all)
  /\ query_records "farmer1" (Some (with_limit (Some 5%Z) no_filters)) s
     = take 5 (refs s).
Proof.
  intros all part. unfold all, part. rewrite !query_records_spec.
  rewrite query_refs_limit.
  repeat match goal with |- _ /\ _ => split end.
  - apply query_refs_sublist.
  - destruct (truthy_number (Some k)); [apply slice0_sublist|done].
  - destruct (decide (k = 0)%Z) as [->|Hk]; [done|].
    assert (Ht : truthy_number (Some k) = Some k) by by destruct k.
    rewrite Ht. unfold slice0.
    destruct (Z.ltb_spec k 0); case_decide; try lia; [|done].
    f_equal. lia.
  - done.
Qed.

Example query_limit_example :
  let s := service_with PermDefault
             [sample_notification "a" None false [];
              sample_notification "b" None true [];
              sample_notification "c" None false [];
              sample_notification "d" None false []] [] in
  query_records "farmer1" (Some (with_limit (Some 2%Z) no_filters)) s = [0; 1]
  /\ query_records "farmer1" (Some (with_limit (Some (-1)%Z) no_filters)) s = [0; 1; 2]
  /\ query_records "farmer1" (Some (with_limit (Some (-9)%Z) no_filters)) s = []
  /\ query_records "farmer1" (Some (with_limit (Some 9%Z) (only_isRead false))) s
     = [0; 2; 3].
Proof. by vm_compute. Qed.

Lemma truthy_string_some (ty : string) : ty <> "" -> truthy_string (Some ty) = Some ty.
Proof. by destruct ty. Qed.

(** X8: the filters of a query are combined by conjunction: without a limit,
    a query returns exactly the notifications of the store that pass every
    filter given, whatever the order the filters are applied in.  An empty
    string as [type] or [category] filter is no filter, and a [type] that is
    not the name of a notification type selects nothing. *)
Theorem query_filters_are_conjoined (userId : string) (f : Filters) (s : Service) :
  no_dangling s ->
  query_records userId (Some (with_limit None f)) s
    = List.filter (holds s (matches f)) (refs s)
  /\ omap (fun l => objects s !! l) (query_records userId (Some (with_limit None f)) s)
     = List.filter (matches f) (contents s)
  /\ query_records userId
       (Some {| f_type := Some ""; f_category := Some "";
                f_isRead := f_isRead f; f_limit := f_limit f |}) s
     = query_records userId
         (Some {| f_type := None; f_category := None;
                  f_isRead := f_isRead f; f_limit := f_limit f |}) s
  /\ (forall ty, f_type f = Some ty -> ty <> "" ->
        (forall t, type_string t <> ty) ->
        query_records userId (Some (with_limit None f)) s = []).
Proof.
  intros Hd. rewrite !query_records_spec.
  pose proof (query_refs_unlimited f s Hd) as Hq.
  repeat match goal with |- _ /\ _ => split end.
  - done.
  - rewrite Hq. apply omap_filter_holds.
  - done.
  - intros ty Hty Hne Hno. rewrite Hq. clear Hq Hd.
    induction (refs s) as [|l ls IH]; [done|]. simpl. rewrite IH.
    unfold holds, matches. rewrite Hty, (truthy_string_some ty Hne).
    destruct (objects s !! l) as [n|]; [|done].
    destruct (String.eqb_spec (type_string (Notification.type n)) ty) as [E|E];
      [by destruct (Hno _ E) | done].
Qed.

Lemma query_filters_witness :
  let s := service_with PermDefault
             [sample_notification "a" None false [];
              sample_notification "b" None true []] [] in
  let f := {| f_type := Some "general"; f_category := Some "info";
              f_isRead := Some true; f_limit := None |} in
  query_records "farmer1" (Some (with_limit None f)) s = [1]
  /\ omap (fun l => objects s !! l) (query_records "farmer1" (Some (with_limit None f)) s)
     = [sample_notification "b" None true []].
Proof.
  intros s f.
  destruct (query_filters_are_conjoined "farmer1" f s) as (H1 & H2 & _).
  - apply well_formed_initial.
  - split; [exact H1 | exact H2].
Defined.

Lemma length_filter_partition {A : Type} (p q : A -> bool) (xs : list A) :
  Forall (fun x => q x = negb (p x)) xs ->
  length (List.filter p xs) + length (List.filter q xs) = length xs.
Proof.
  induction 1 as [|x xs Hx _ IH]; [done|]. simpl. rewrite Hx.
  destruct (p x); simpl; lia.
Qed.

(** X9: the unread count is the number of notifications a query for
    [isRead: false] returns, whoever asks; the queries for unread and for
    read notifications split the store between them. *)
Theorem unread_count_is_the_unread_query (userId userId' : string) (s : Service) :
  no_dangling s ->
  getUnreadCount userId s
    = length (query_records userId' (Some (only_isRead false)) s)
  /\ getUnreadCount userId s
     + length (query_records userId' (Some (only_isRead true)) s)
     = length (refs s).
Proof.
  intros Hd. rewrite !query_records_spec. unfold query_refs, getUnreadCount. simpl.
  split.
  - reflexivity.
  - apply length_filter_partition. unfold no_dangling in Hd.
    eapply Forall_impl; [exact Hd|]. intros l [n Hn]. unfold holds. rewrite Hn.
    by destruct (Notification.isRead n).
Qed.

Lemma unread_count_witness :
  let s := service_with PermDefault
             [sample_notification "a" None false [];
              sample_notification "b" None true [];
              sample_notification "c" None false []] [] in
  getUnreadCount "farmer-1" s
    = length (query_records "farmer-2" (Some (only_isRead false)) s)
  /\ getUnreadCount "farmer-1" s
     + length (query_records "farmer-2" (Some (only_isRead true)) s)
     = 3.
Proof.
  intros s. apply (unread_count_is_the_unread_query "farmer-1" "farmer-2" s).
  apply well_formed_initial.
Defined.

(** ** Mutations, record by record *)

Lemma omap_alter_notin (f : Notification.t -> Notification.t) (l : nat)
    (m : gmap nat Notification.t) (ls : list nat) :
  l ∉ ls -> omap (fun x => alter f l m !! x) ls = omap (fun x => m !! x) ls.
Proof.
  induction ls as [|x ls IH]; intros Hl; [done|].
  apply not_elem_of_cons in Hl as [Hx Hl]. simpl.
  rewrite lookup_alter_ne by done.
  destruct (m !! x); simpl; first [by f_equal; apply IH | by apply IH].
Qed.

Lemma mark_first_spec (s : Service) (id : string) (ls : list nat) :
  NoDup ls ->
  Forall (fun l => is_Some (objects s !! l)) ls ->
  match List.find (holds s (fun n => String.eqb (Notification.id n) id)) ls with
  | Some l =>
      omap (fun x => alter (with_isRead true) l (objects s) !! x) ls
      = mark_first id (omap (fun x => objects s !! x) ls)
  | None => mark_first id (omap (fun x => objects s !! x) ls)
            = omap (fun x => objects s !! x) ls
  end.
Proof.
  intros Hnd Hd. induction Hd as [|x ls [n Hn] Hd IH]; [done|].
  apply NoDup_cons in Hnd as [Hx Hnd]. specialize (IH Hnd).
  simpl. unfold holds at 1. rewrite Hn.
  destruct (String.eqb (Notification.id n) id) eqn:E.
  - rewrite lookup_alter_eq, Hn. simpl. rewrite E. f_equal.
    by apply omap_alter_notin.
  - destruct (List.find _ ls) as [l|] eqn:Hf.
    + assert (Hxl : l <> x).
      { intros ->. apply find_some in Hf as [_ Hf]. unfold holds in Hf.
        rewrite Hn in Hf. congruence. }
      rewrite lookup_alter_ne by done. rewrite Hn. simpl. rewrite E. f_equal. exact IH.
    + simpl. rewrite E. f_equal. exact IH.
Qed.

(** X10: [markAsRead(id)] marks one notification at most: the most recent
    one with that identifier.  Older notifications with the same identifier
    stay as they are, and when no notification has it the service is left
    untouched (nothing is written to storage either). *)
Theorem markAsRead_marks_the_most_recent_match (id : string) (s : Service) :
  NoDup (refs s) ->
  no_dangling s ->
  refs (markAsRead id s) = refs s
  /\ contents (markAsRead id s) = mark_first id (contents s)
  /\ (absent id s -> markAsRead id s = s).
Proof.
  intros Hnd Hd. pose proof (mark_first_spec s id (refs s) Hnd Hd) as H.
  unfold markAsRead, contents, absent.
  destruct (List.find _ (refs s)) as [l|] eqn:Hf.
  - rewrite refs_save, objects_save. repeat split; [done|].
    intros Ha. exfalso. apply find_some in Hf as [Hin Hf].
    unfold no_dangling, contents in *. rewrite Forall_forall in Ha.
    unfold holds in Hf. destruct (objects s !! l) as [n|] eqn:Hn; [|done].
    apply (Ha n); [|by apply String.eqb_eq].
    apply list_elem_of_omap. exists l. split; [by apply list_elem_of_In|done].
  - by rewrite H.
Qed.

Lemma markAsRead_marks_witness :
  let s := service_with PermDefault
             [sample_notification "tip_7_2_0" None false [];
              sample_notification "other" None false [];
              sample_notification "tip_7_2_0" None false []] [] in
  refs (markAsRead "tip_7_2_0" s) = [0; 1; 2]
  /\ map Notification.isRead (contents (markAsRead "tip_7_2_0" s))
     = [true; false; false].
Proof.
  intros s.
  destruct (markAsRead_marks_the_most_recent_match "tip_7_2_0" s) as (H1 & H2 & _).
  - repeat constructor; vm_compute; intros H; by repeat (apply elem_of_cons in H as [H|H]; [done|]); apply elem_of_nil in H.
  - apply well_formed_initial.
  - split; [exact H1 | by rewrite H2].
Defined.

Lemma contents_deleteNotification (id : string) (s : Service) :
  contents (deleteNotification id s)
  = List.filter (fun n => negb (String.eqb (Notification.id n) id)) (contents s).
Proof.
  destruct (deleteNotification_refs id s) as [Hr Ho].
  unfold contents. rewrite Hr, Ho. apply omap_filter_holds.
Qed.

(** X11: [deleteNotification(id)] removes every notification with that
    identifier, however many there are, keeps all the others in their order
    with their records untouched, and so leaves the identifier absent. *)
Theorem deleteNotification_removes_every_match (id : string) (s : Service) :
  contents (deleteNotification id s)
    = filter (fun n => Notification.id n <> id) (contents s)
  /\ objects (deleteNotification id s) = objects s
  /\ sublist (refs (deleteNotification id s)) (refs s)
  /\ absent id (deleteNotification id s).
Proof.
  destruct (deleteNotification_refs id s) as [Hr Ho].
  assert (Hc : contents (deleteNotification id s)
               = filter (fun n => Notification.id n <> id) (contents s)).
  { rewrite contents_deleteNotification. apply filter_bool_prop. intros n.
    rewrite negb_true_iff. apply String.eqb_neq. }
  repeat match goal with |- _ /\ _ => split end; try done.
  - rewrite Hr. apply sublist_filter_bool.
  - unfold absent. rewrite Hc. apply Forall_forall. intros n Hn.
    by apply list_elem_of_filter in Hn as [Hn _].
Qed.

Example delete_removes_duplicates :
  let s := service_with PermDefault
             [sample_notification "tip_7_2_0" None false [];
              sample_notification "other" None false [];
              sample_notification "tip_7_2_0" None true []] [] in
  map Notification.id (contents (deleteNotification "tip_7_2_0" s)) = ["other"].
Proof. by vm_compute. Qed.

Lemma live_max (t1 t2 : Z) (o : option Z) :
  match o with None => true | Some e => (t1 <? e)%Z end
  && match o with None => true | Some e => (t2 <? e)%Z end
  = match o with None => true | Some e => (Z.max t1 t2 <? e)%Z end.
Proof.
  destruct o as [e|]; [|done].
  destruct (Z.ltb_spec t1 e), (Z.ltb_spec t2 e), (Z.ltb_spec (Z.max t1 t2) e);
    simpl; try done; lia.
Qed.

(** X12: two cleanups in a row keep what one cleanup at the later of the two
    times keeps (so a repeated cleanup at the same time changes nothing
    more); cleanup never touches a record and never reorders the store. *)
Theorem cleanup_composes (t1 t2 : Z) (s : Service) :
  refs (cleanup t2 (cleanup t1 s)) = refs (cleanup (Z.max t1 t2) s)
  /\ contents (cleanup t2 (cleanup t1 s)) = contents (cleanup (Z.max t1 t2) s)
  /\ refs (cleanup t1 (cleanup t1 s)) = refs (cleanup t1 s)
  /\ objects (cleanup t1 s) = objects s
  /\ sublist (refs (cleanup t1 s)) (refs s).
Proof.
  destruct (cleanup_refs t1 s) as [Hr1 Ho1].
  destruct (cleanup_refs t2 (cleanup t1 s)) as [Hr2 Ho2].
  destruct (cleanup_refs (Z.max t1 t2) s) as [Hr Ho].
  destruct (cleanup_refs t1 (cleanup t1 s)) as [Hr3 _].
  assert (H : refs (cleanup t2 (cleanup t1 s)) = refs (cleanup (Z.max t1 t2) s)).
  { rewrite Hr2, Hr1, Hr, filter_filter_bool. apply List.filter_ext. intros l.
    unfold holds. rewrite Ho1. destruct (objects s !! l) as [n|]; [|done].
    apply live_max. }
  repeat match goal with |- _ /\ _ => split end; try done.
  - unfold contents. by rewrite H, Ho2, Ho1, Ho.
  - rewrite Hr3, Hr1. unfold holds. rewrite Ho1. apply filter_twice.
  - rewrite Hr1. apply sublist_filter_bool.
Qed.

(** ** Price alerts, from the poll to the store *)

Lemma omap_insert_notin (l : nat) (n : Notification.t)
    (m : gmap nat Notification.t) (ls : list nat) :
  l ∉ ls -> omap (fun x => <[l := n]> m !! x) ls = omap (fun x => m !! x) ls.
Proof.
  induction ls as [|x ls IH]; intros Hl; [done|].
  apply not_elem_of_cons in Hl as [Hx Hl]. simpl.
  rewrite lookup_insert_ne by done.
  destruct (m !! x); simpl; first [by f_equal; apply IH | by apply IH].
Qed.

Lemma contents_sendNotification (l : nat) (now : Z) (s : Service)
    (n : Notification.t) :
  no_dangling s ->
  objects s !! l = Some n ->
  l ∉ refs s ->
  contents (sendNotification l now s)
  = take 100 (with_deliveryChannels
                (map (dispatch_outcome s now) (Notification.deliveryChannels n)) n
              :: contents s).
Proof.
  intros Hd Hn Hl.
  pose proof (objects_sendNotification l now s n Hn) as Ho.
  assert (Hd' : Forall (fun x => is_Some (objects (sendNotification l now s) !! x))
                       (l :: refs s)).
  { rewrite Ho. constructor; [rewrite lookup_insert_eq; by eexists|].
    eapply Forall_impl; [exact Hd|]. intros x Hx. simpl in *.
    apply lookup_insert_is_Some'. by right. }
  unfold contents at 1. rewrite refs_sendNotification.
  rewrite (omap_take_no_dangling _ _ _ Hd'). f_equal.
  rewrite Ho. simpl. rewrite lookup_insert_eq. f_equal.
  by apply omap_insert_notin.
Qed.

Lemma fresh_not_in_refs (s : Service) :
  no_dangling s -> fresh (dom (objects s)) ∉ refs s.
Proof.
  intros Hd Hin. unfold no_dangling in Hd. rewrite Forall_forall in Hd.
  apply (is_fresh (dom (objects s))). by apply elem_of_dom, Hd.
Qed.

Lemma createNotificationFromPriceAlert_spec (numberToString : float -> string)
    (p : PriceAlert.t * Z) (s : Service) :
  well_formed s ->
  let s' := createNotificationFromPriceAlert numberToString p.1 p.2 s in
  contents s' = take 100 (dispatched_price_notification numberToString s p :: contents s)
  /\ displayed s'
     = (displayed s
        ++ shown s (price_notification numberToString p.1 p.2) (new_channel Push))%list
  /\ notificationPermission s' = notificationPermission s
  /\ constructorError s' = constructorError s
  /\ well_formed s'.
Proof.
  intros Hwf. pose proof Hwf as [Hs Hd]. simpl.
  pose proof (well_formed_createNotificationFromPriceAlert numberToString p.1 p.2 s Hwf)
    as Hwf'.
  unfold createNotificationFromPriceAlert in *. unfold alloc_object in *.
  set (l := fresh (dom (objects s))) in *.
  set (n := price_notification numberToString p.1 p.2) in *.
  set (s1 := set_objects (<[l := n]> (objects s)) s) in *.
  assert (Hn : objects s1 !! l = Some n) by apply lookup_insert_eq.
  assert (Hl : l ∉ refs s1)
    by (change (refs s1) with (refs s); by apply fresh_not_in_refs).
  assert (Hd1 : no_dangling s1).
  { unfold no_dangling in *. eapply Forall_impl; [exact Hd|].
    intros x Hx. simpl in *. apply lookup_insert_is_Some'. by right. }
  destruct (sendNotification_permission l p.2 s1) as (Hp & He & _).
  repeat match goal with |- _ /\ _ => split end; try done.
  - rewrite (contents_sendNotification l p.2 s1 n Hd1 Hn Hl).
    assert (Hc : contents s1 = contents s).
    { unfold contents. change (refs s1) with (refs s).
      apply omap_insert_notin. by apply fresh_not_in_refs. }
    rewrite Hc. reflexivity.
  - rewrite (displayed_sendNotification_all l p.2 s1 n Hn). simpl.
    by rewrite app_nil_r.
Qed.

Lemma take_app_take_any {A : Type} (k : nat) (xs ys : list A) :
  take k (xs ++ take k ys) = take k (xs ++ ys).
Proof. rewrite !take_app. f_equal. rewrite take_take. f_equal. lia. Qed.

Lemma dispatched_price_notification_ext numberToString s s' p :
  notificationPermission s' = notificationPermission s ->
  constructorError s' = constructorError s ->
  dispatched_price_notification numberToString s' p
  = dispatched_price_notification numberToString s p.
Proof.
  intros Hp He. unfold dispatched_price_notification.
  by rewrite (attempt_outcome_ext s s' _ _ Hp He).
Qed.

(** X13: the alerts of one poll are normalized and appended in the order
    they were emitted, so the last one emitted ends up the most recent of
    the store; each is dispatched on its push and in-app entries, and the
    platform notifications are shown in emission order.  The store stays
    well formed and within its cap of 100. *)
Theorem price_poll_appends_in_order (numberToString : float -> string)
    (polled : list (PriceAlert.t * Z)) (s : Service) :
  well_formed s ->
  length (refs s) <= 100 ->
  let s' := checkPriceChanges numberToString polled s in
  contents s'
    = take 100 (rev (map (dispatched_price_notification numberToString s) polled)
                ++ contents s)
  /\ displayed s'
     = (displayed s
        ++ flat_map (fun p => shown s (price_notification numberToString p.1 p.2)
                                      (new_channel Push)) polled)%list
  /\ length (refs s') <= 100
  /\ well_formed s'.
Proof.
  revert s. induction polled as [|p polled IH]; intros s Hwf Hlen.
  - simpl. repeat split; try done; try apply Hwf.
    + symmetry. apply take_ge. by rewrite <- (length_contents s (proj2 Hwf)).
    + by rewrite app_nil_r.
  - destruct (createNotificationFromPriceAlert_spec numberToString p s Hwf)
      as (Hc & Hd & Hp & He & Hwf1).
    set (s1 := createNotificationFromPriceAlert numberToString p.1 p.2 s) in *.
    assert (Hlen1 : length (refs s1) <= 100).
    { rewrite (length_contents s1 (proj2 Hwf1)), Hc, length_take. lia. }
    destruct (IH s1 Hwf1 Hlen1) as (Hc' & Hd' & Hl' & Hwf').
    change (checkPriceChanges numberToString (p :: polled) s)
      with (checkPriceChanges numberToString polled s1).
    cbv zeta.
    repeat match goal with |- _ /\ _ => split end; try done.
    + rewrite Hc', Hc, take_app_take_any. simpl. rewrite <- app_assoc. simpl.
      do 3 f_equal. apply map_ext. intros q.
      by apply dispatched_price_notification_ext.
    + rewrite Hd', Hd. simpl. rewrite <- app_assoc. do 2 f_equal.
      apply flat_map_ext. intros q. by apply shown_ext.
Qed.

Lemma price_poll_witness :
  let alert i := PriceAlert.mk i "Rice" "Standard" 2300%float 2000%float 300%float
                   12%float "Local Mandi" SuddenSpike [] in
  let s := service_with PermGranted [sample_notification "old" None false []] [] in
  let s' := checkPriceChanges (fun _ => "") [(alert "price_1", 5000%Z); (alert "price_2", 6000%Z)] s in
  map Notification.id (contents s') = ["notif_price_2"; "notif_price_1"; "old"]
  /\ map pn_tag (displayed s') = ["notif_price_1"; "notif_price_2"]
  /\ length (refs s') <= 100
  /\ well_formed s'.
Proof.
  intros alert s s'.
  destruct (price_poll_appends_in_order (fun _ => "")
              [(alert "price_1", 5000%Z); (alert "price_2", 6000%Z)] s)
    as (Hc & Hd & Hl & Hwf).
  - apply well_formed_initial.
  - vm_compute. lia.
  - fold s' in Hc, Hd, Hl, Hwf. rewrite Hc, Hd.
    repeat match goal with |- _ /\ _ => split end;
      [by vm_compute | by vm_compute | exact Hl | exact Hwf].
Defined.

Lemma contents_cleanup (now : Z) (s : Service) :
  contents (cleanup now s) = filter (unexpired now) (contents s).
Proof.
  destruct (cleanup_refs now s) as [Hr Ho].
  unfold contents. rewrite Hr, Ho, omap_filter_holds.
  apply filter_bool_prop. intros n. unfold unexpired.
  destruct (Notification.expiresAt n) as [e|].
  - rewrite Z.ltb_lt. split; [by intros ? ? [= <-] | by intros H; apply H].
  - split; [by intros|done].
Qed.

(** X14: a price alert adds one unread notification: while the store is
    below its cap the unread count goes up by exactly one, so it is 1 right
    after [markAllAsRead]; and the notification has no expiry, so no cleanup,
    at whatever time, removes it. *)
Theorem price_notification_is_unread_and_stays (numberToString : float -> string)
    (p : PriceAlert.t * Z) (s : Service) (userId : string) (later : Z) :
  well_formed s ->
  length (refs s) < 100 ->
  let create := createNotificationFromPriceAlert numberToString p.1 p.2 in
  getUnreadCount userId (create s) = S (getUnreadCount userId s)
  /\ getUnreadCount userId (create (markAllAsRead userId s)) = 1
  /\ head (contents (cleanup later (create s)))
     = Some (dispatched_price_notification numberToString s p).
Proof.
  intros Hwf Hlen create.
  assert (Hstep : forall s0, well_formed s0 -> length (refs s0) < 100 ->
            contents (create s0)
            = dispatched_price_notification numberToString s0 p :: contents s0).
  { intros s0 Hwf0 Hlen0.
    destruct (createNotificationFromPriceAlert_spec numberToString p s0 Hwf0) as (Hc & _).
    unfold create. rewrite Hc. apply take_ge. simpl.
    rewrite <- (length_contents s0 (proj2 Hwf0)). lia. }
  repeat match goal with |- _ /\ _ => split end.
  - rewrite !getUnreadCount_contents, (Hstep s Hwf Hlen). done.
  - destruct (contents_markAllAsRead userId s) as [Hr Hc].
    rewrite getUnreadCount_contents, Hstep.
    + simpl. by rewrite Hc, no_unread_after_marking.
    + by apply well_formed_markAllAsRead.
    + by rewrite Hr.
  - rewrite contents_cleanup, (Hstep s Hwf Hlen).
    rewrite filter_cons_True; [done|]. by intros e.
Qed.

Lemma price_notification_witness :
  let p := (PriceAlert.mk "price_1" "Rice" "Standard" 2300%float 2000%float
              300%float 12%float "Local Mandi" SuddenSpike [], 5000%Z) in
  let s := service_with PermDefault [sample_notification "old" None false []] [] in
  let create := createNotificationFromPriceAlert (fun _ => "") p.1 p.2 in
  getUnreadCount "farmer-1" (create s) = 2
  /\ getUnreadCount "farmer-1" (create (markAllAsRead "farmer-1" s)) = 1
  /\ head (contents (cleanup 99999999 (create s)))
     = Some (dispatched_price_notification (fun _ => "") s p).
Proof.
  intros p s create.
  apply (price_notification_is_unread_and_stays (fun _ => "") p s "farmer-1" 99999999).
  - apply well_formed_initial.
  - vm_compute. lia.
Defined.

(** ** Analytics: groups and the most engaging type *)

Lemma tally_add_spec (key : string) (n : Notification.t) (acc : list (string * Tally)) :
  total_of sent (tally_add key n acc) = S (total_of sent acc)
  /\ total_of delivered (tally_add key n acc)
     = total_of delivered acc + bool_to_nat (some_delivered n)
  /\ total_of read (tally_add key n acc)
     = total_of read acc + bool_to_nat (Notification.isRead n)
  /\ (Forall (fun e => tally_ok e.2) acc ->
      Forall (fun e => tally_ok e.2) (tally_add key n acc))
  /\ (forall k, k ∈ map fst (tally_add key n acc) <-> k = key \/ k ∈ map fst acc)
  /\ (NoDup (map fst acc) -> NoDup (map fst (tally_add key n acc))).
Proof.
  assert (Hb : forall b, bool_to_nat b <= 1) by (intros []; simpl; lia).
  unfold total_of.
  induction acc as [|[k t] acc IH]; simpl.
  - repeat split; try lia.
    + intros _. constructor; [|done]. unfold tally_ok. simpl.
      pose proof (Hb (some_delivered n)). pose proof (Hb (Notification.isRead n)). lia.
    + intros H. apply list_elem_of_singleton in H. by left.
    + intros [->|H]; [apply list_elem_of_singleton; done | by apply elem_of_nil in H].
    + intros _. apply NoDup_singleton.
  - destruct IH as (IH1 & IH2 & IH3 & IH4 & IH5 & IH6).
    destruct (String.eqb_spec k key) as [->|Hne]; simpl.
    + repeat split; try lia.
      * intros H. apply Forall_cons in H as [Ht H]. constructor; [|done].
        unfold tally_ok in *. simpl in *.
        pose proof (Hb (some_delivered n)). pose proof (Hb (Notification.isRead n)). lia.
      * intros H. by right.
      * intros [->|H]; [apply elem_of_cons; by left | done].
      * done.
    + repeat split; try lia.
      * intros H. apply Forall_cons in H as [Ht H]. constructor; [done|by apply IH4].
      * intros H. apply elem_of_cons in H as [->|H].
        -- right. apply elem_of_cons. by left.
        -- apply IH5 in H as [->|H]; [by left|]. right. apply elem_of_cons. by right.
      * intros [->|H].
        -- apply elem_of_cons. right. apply IH5. by left.
        -- apply elem_of_cons in H as [->|H]; apply elem_of_cons; [by left|].
           right. apply IH5. by right.
      * intros H. apply NoDup_cons in H as [Hk H]. apply NoDup_cons. split; [|by apply IH6].
        intros Hin. apply IH5 in Hin as [->|Hin]; done.
Qed.

Lemma group_fold_spec (key : Notification.t -> string) (s : Service)
    (ls : list nat) (acc : list (string * Tally)) :
  Forall (fun l => is_Some (objects s !! l)) ls ->
  let step acc l := match objects s !! l with
                    | Some n => tally_add (key n) n acc
                    | None => acc
                    end in
  let g := fold_left step ls acc in
  total_of sent g = total_of sent acc + length ls
  /\ total_of delivered g
     = total_of delivered acc + length (List.filter (holds s some_delivered) ls)
  /\ total_of read g
     = total_of read acc + length (List.filter (holds s Notification.isRead) ls)
  /\ (Forall (fun e => tally_ok e.2) acc -> Forall (fun e => tally_ok e.2) g)
  /\ (NoDup (map fst acc) -> NoDup (map fst g))
  /\ (forall k, k ∈ map fst g <->
                k ∈ map fst acc \/ exists l n, l ∈ ls /\ objects s !! l = Some n /\ key n = k).
Proof.
  intros Hd. revert acc. induction Hd as [|l ls [n Hn] _ IH]; intros acc; simpl.
  - repeat split; try done; try lia.
    + by left.
    + intros [H|(l & n & H & _)]; [done | by apply elem_of_nil in H].
  - rewrite Hn.
    destruct (tally_add_spec (key n) n acc) as (T1 & T2 & T3 & T4 & T5 & T6).
    destruct (IH (tally_add (key n) n acc)) as (I1 & I2 & I3 & I4 & I5 & I6).
    assert (Hh : forall p, holds s p l = p n)
      by (intros q; unfold holds; by rewrite Hn).
    simpl in *. rewrite !Hh.
    repeat split.
    + rewrite I1, T1. lia.
    + rewrite I2, T2. destruct (some_delivered n); simpl; lia.
    + rewrite I3, T3. destruct (Notification.isRead n); simpl; lia.
    + intros H. by apply I4, T4.
    + intros H. by apply I5, T6.
    + intros H. apply I6 in H as [H|(l' & n' & H1 & H2 & H3)].
      * apply T5 in H as [->|H]; [|by left].
        right. exists l, n. split; [apply elem_of_cons; by left|done].
      * right. exists l', n'. split; [apply elem_of_cons; by right|done].
    + intros [H|(l' & n' & H1 & H2 & H3)]; apply I6.
      * left. apply T5. by right.
      * apply elem_of_cons in H1 as [->|H1].
        -- left. apply T5. left. congruence.
        -- right. by exists l', n'.
Qed.

Lemma relevant_no_dangling startDate timeframe now (s : Service) :
  Forall (fun l => is_Some (objects s !! l))
         (relevantNotifications startDate timeframe now s).
Proof.
  unfold relevantNotifications. apply Forall_forall. intros l Hl.
  apply list_elem_of_In, filter_In in Hl as [_ Hl]. unfold holds in Hl.
  destruct (objects s !! l); [by eexists | done].
Qed.


Lemma engaging_fold_max (g : list (string * Tally)) (ks : list string) (a : string) :
  let r := fold_left (fun a b => if (read_of g b <? read_of g a)%nat then a else b) ks a in
  read_of g a <= read_of g r
  /\ Forall (fun k => read_of g k <= read_of g r) ks
  /\ (r = a \/ r ∈ ks).
Proof.
  revert a. induction ks as [|b ks IH]; intros a; simpl.
  - repeat split; [lia | constructor | by left].
  - destruct (IH (if (read_of g b <? read_of g a)%nat then a else b)) as (I1 & I2 & I3).
    destruct (Nat.ltb_spec (read_of g b) (read_of g a)) as [Hlt|Hge].
    + repeat split; [done | constructor; [lia|done] |].
      destruct I3 as [->|H]; [by left | right; apply elem_of_cons; by right].
    + repeat split; [lia | constructor; [done|done] |].
      right. apply elem_of_cons. destruct I3 as [->|H]; [by left | by right].
Qed.

Lemma read_of_absent (g : list (string * Tally)) (k : string) :
  k ∉ map fst g -> read_of g k = 0.
Proof.
  intros Hk. unfold read_of.
  destruct (List.find _ g) as [e|] eqn:Hf; [|done]. exfalso.
  apply find_some in Hf as [Hin Heq]. apply String.eqb_eq in Heq. subst k.
  apply Hk, list_elem_of_fmap. exists e. split; [done | by apply list_elem_of_In].
Qed.

Lemma engaging_fold_member (g : list (string * Tally)) (ks : list string) (a : string) :
  ks <> [] ->
  ks ⊆ map fst g ->
  fold_left (fun a b => if (read_of g b <? read_of g a)%nat then a else b) ks a
    ∈ map fst g.
Proof.
  intros Hne Hsub. destruct ks as [|b ks]; [done|]. simpl.
  assert (Ha : (if (read_of g b <? read_of g a)%nat then a else b) ∈ map fst g).
  { destruct (Nat.ltb_spec (read_of g b) (read_of g a)) as [Hlt|Hge].
    - destruct (decide (a ∈ map fst g)) as [|Hn]; [done|].
      rewrite (read_of_absent g a Hn) in Hlt. lia.
    - apply Hsub, elem_of_cons. by left. }
  destruct (engaging_fold_max g ks (if (read_of g b <? read_of g a)%nat then a else b))
    as (_ & _ & [->|H]); [done|].
  apply Hsub, elem_of_cons. by right.
Qed.

Lemma engaging_fold_last (g : list (string * Tally)) (ks : list string) (a : string) :
  let r := fold_left (fun a b => if (read_of g b <? read_of g a)%nat then a else b) ks a in
  (r = a /\ Forall (fun k => read_of g k < read_of g a) ks)
  \/ exists pre post, ks = (pre ++ r :: post)%list
                      /\ Forall (fun k => read_of g k < read_of g r) post.
Proof.
  revert a. induction ks as [|b ks IH]; intros a; simpl.
  - left. by split.
  - destruct (Nat.ltb_spec (read_of g b) (read_of g a)) as [Hlt|Hge].
    + destruct (IH a) as [[Hr Hall]|(pre & post & Hks & Hall)].
      * left. split; [done|]. by constructor.
      * right. exists (b :: pre), post. split; [|done]. simpl. by f_equal.
    + destruct (IH b) as [[Hr Hall]|(pre & post & Hks & Hall)].
      * right. exists [], ks. simpl. rewrite Hr. by split.
      * right. exists (b :: pre), post. split; [|done]. simpl. by f_equal.
Qed.

Lemma tally_add_find (key : string) (n : Notification.t)
    (acc : list (string * Tally)) (k : string) :
  List.find (fun e => String.eqb e.1 k) (tally_add key n acc)
  = if String.eqb key k
    then
      let t := match List.find (fun e => String.eqb e.1 k) acc with
               | Some e => e.2
               | None => {| sent := 0; delivered := 0; read := 0 |}
               end in
      Some (k, {| sent := S (sent t);
                  delivered := delivered t + bool_to_nat (some_delivered n);
                  read := read t + bool_to_nat (Notification.isRead n) |})
    else List.find (fun e => String.eqb e.1 k) acc.
Proof.
  induction acc as [|[k0 t] acc IH]; simpl.
  - by destruct (String.eqb_spec key k) as [->|Hne].
  - destruct (String.eqb_spec k0 key) as [->|Hne]; simpl.
    + by destruct (String.eqb_spec key k) as [->|Hne].
    + destruct (String.eqb_spec k0 k) as [->|Hne'].
      * destruct (String.eqb_spec key k) as [->|Hne'']; done.
      * exact IH.
Qed.

Lemma tally_of_snoc (ns : list Notification.t) (n : Notification.t) :
  tally_of (ns ++ [n])
  = {| sent := S (sent (tally_of ns));
       delivered := delivered (tally_of ns) + bool_to_nat (some_delivered n);
       read := read (tally_of ns) + bool_to_nat (Notification.isRead n) |}.
Proof.
  unfold tally_of. simpl. rewrite !List.filter_app, !length_app. simpl.
  f_equal; [lia | by destruct (some_delivered n) | by destruct (Notification.isRead n)].
Qed.

Lemma group_by_find (key : Notification.t -> string) (s : Service) (ls : list nat)
    (k : string) :
  Forall (fun l => is_Some (objects s !! l)) ls ->
  List.find (fun e => String.eqb e.1 k) (group_by key s ls)
  = match with_key key k (omap (fun l => objects s !! l) ls) with
    | [] => None
    | ns => Some (k, tally_of ns)
    end.
Proof.
  unfold group_by.
  induction ls as [|l ls IH] using rev_ind; [done|].
  intros H. apply Forall_app in H as [Hls Hl]. apply Forall_singleton in Hl as [n Hn].
  specialize (IH Hls). rewrite fold_left_app. simpl. rewrite Hn.
  rewrite tally_add_find, IH. rewrite omap_app. simpl. rewrite Hn. simpl.
  unfold with_key. rewrite List.filter_app. simpl.
  set (ns := List.filter (fun n0 => String.eqb (key n0) k)
               (omap (fun l0 => objects s !! l0) ls)).
  destruct (String.eqb (key n) k).
  - assert (Hs : match (ns ++ [n])%list with
                 | [] => None
                 | n1 :: ns1 => Some (k, tally_of (n1 :: ns1))
                 end = Some (k, tally_of (ns ++ [n]))) by (by destruct ns).
    rewrite Hs, tally_of_snoc. by destruct ns.
  - by rewrite app_nil_r.
Qed.

Lemma existsb_filter_ne (x k : string) (ks : list string) :
  x <> k ->
  existsb (String.eqb x) (List.filter (fun k' => negb (String.eqb k' k)) ks)
  = existsb (String.eqb x) ks.
Proof.
  intros Hne. induction ks as [|k0 ks IH]; [done|]. simpl.
  destruct (String.eqb_spec k0 k) as [->|Hne0]; simpl.
  - rewrite IH. by destruct (String.eqb_spec x k).
  - by rewrite IH.
Qed.

Lemma first_occurrences_snoc (ks : list string) (x : string) :
  first_occurrences (ks ++ [x])
  = (first_occurrences ks
     ++ if existsb (String.eqb x) (first_occurrences ks) then [] else [x])%list.
Proof.
  induction ks as [|k ks IH]; [done|]. simpl. rewrite IH, List.filter_app. f_equal.
  destruct (String.eqb_spec x k) as [->|Hne]; simpl.
  - f_equal. destruct (existsb _ _); [done|]. simpl. by rewrite String.eqb_refl.
  - rewrite (existsb_filter_ne x k _ Hne). f_equal.
    destruct (existsb _ _); [done|]. simpl.
    by destruct (String.eqb_spec x k).
Qed.

Lemma tally_add_keys (key : string) (n : Notification.t) (acc : list (string * Tally)) :
  map fst (tally_add key n acc)
  = (map fst acc ++ if existsb (String.eqb key) (map fst acc) then [] else [key])%list.
Proof.
  induction acc as [|[k0 t] acc IH]; [done|]. simpl.
  rewrite (String.eqb_sym key k0).
  destruct (String.eqb_spec k0 key) as [->|Hne]; simpl.
  - by rewrite app_nil_r.
  - by rewrite IH.
Qed.

Lemma group_by_keys (key : Notification.t -> string) (s : Service) (ls : list nat) :
  Forall (fun l => is_Some (objects s !! l)) ls ->
  map fst (group_by key s ls)
  = first_occurrences (map key (omap (fun l => objects s !! l) ls)).
Proof.
  unfold group_by.
  induction ls as [|l ls IH] using rev_ind; [done|].
  intros H. apply Forall_app in H as [Hls Hl]. apply Forall_singleton in Hl as [n Hn].
  specialize (IH Hls). rewrite fold_left_app. simpl. rewrite Hn.
  rewrite tally_add_keys, IH. rewrite omap_app. simpl. rewrite Hn. simpl.
  rewrite map_app. simpl. by rewrite first_occurrences_snoc.
Qed.

Lemma find_of_NoDup (g : list (string * Tally)) (k : string) (t : Tally) :
  NoDup (map fst g) -> (k, t) ∈ g ->
  List.find (fun e => String.eqb e.1 k) g = Some (k, t).
Proof.
  induction g as [|[k0 t0] g IH]; intros Hnd Hin; [by apply elem_of_nil in Hin|].
  simpl in Hnd. apply NoDup_cons in Hnd as [Hk Hnd]. simpl.
  apply elem_of_cons in Hin as [Heq|Hin].
  - injection Heq as <- <-. by rewrite String.eqb_refl.
  - destruct (String.eqb_spec k0 k) as [->|Hne]; [|by apply IH].
    exfalso. apply Hk, list_elem_of_fmap. by exists (k, t).
Qed.

(** X16: the [byType] groups of the analytics are, type by type, the counts
    of the notifications of that type in the window, one group per type that
    occurs there, the keys in the order in which the types first occur in
    the window.  The most engaging type is "weather" when the window is
    empty and otherwise the type of a notification in the window; no type
    has more read notifications in the window than it has, and of the types
    with as many the one that comes last among the keys of [byType] is
    taken. *)
Theorem most_engaging_type_has_most_reads (startDate : Timeframe -> Z -> Z)
    (userId : string) (timeframe : Timeframe) (now : Z) (s : Service) :
  let a := getNotificationAnalytics startDate userId timeframe now s in
  let w := window startDate timeframe now s in
  let of_type k := with_key (fun n => type_string (Notification.type n)) k w in
  let reads k := read (tally_of (of_type k)) in
  (forall k t, (k, t) ∈ byType a <-> of_type k <> [] /\ t = tally_of (of_type k))
  /\ map fst (byType a)
     = first_occurrences (map (fun n => type_string (Notification.type n)) w)
  /\ (w = [] -> mostEngagingType a = "weather")
  /\ (w <> [] ->
      exists n, n ∈ w /\ mostEngagingType a = type_string (Notification.type n))
  /\ (forall k, reads k <= reads (mostEngagingType a))
  /\ (w <> [] ->
      exists pre post,
        map fst (byType a) = (pre ++ mostEngagingType a :: post)%list
        /\ Forall (fun k => reads k < reads (mostEngagingType a)) post).
Proof.
  intros a w of_type reads.
  set (tk := fun n => type_string (Notification.type n)).
  set (rel := relevantNotifications startDate timeframe now s).
  set (g := group_by tk s rel).
  assert (Ha2 : byType a = g) by reflexivity.
  assert (Ha3 : mostEngagingType a
                = fold_left (fun a b => if (read_of g b <? read_of g a)%nat then a else b)
                            (map fst g) "weather") by reflexivity.
  pose proof (relevant_no_dangling startDate timeframe now s) as Hd.
  assert (Hw : omap (fun l => objects s !! l) rel = w) by apply window_relevant.
  assert (Hfind : forall k, List.find (fun e => String.eqb e.1 k) g
                            = match of_type k with
                              | [] => None
                              | ns => Some (k, tally_of ns)
                              end).
  { intros k. unfold g. rewrite (group_by_find tk s rel k Hd). by rewrite Hw. }
  assert (Hnd : NoDup (map fst g)).
  { destruct (group_fold_spec tk s rel [] Hd) as (_ & _ & _ & _ & A5 & _).
    apply A5. apply NoDup_nil_2. }
  assert (Hentries : forall k t, (k, t) ∈ g <-> of_type k <> [] /\ t = tally_of (of_type k)).
  { intros k t. split.
    - intros Hin. apply (find_of_NoDup g k t Hnd) in Hin. rewrite Hfind in Hin.
      destruct (of_type k) as [|n ns]; [done|]. injection Hin as <-. by split.
    - intros [Hne ->]. specialize (Hfind k).
      destruct (of_type k) as [|n ns] eqn:E; [done|].
      apply find_some in Hfind as [Hin _]. by apply list_elem_of_In. }
  assert (Hreads : forall k, read_of g k = reads k).
  { intros k. unfold read_of, reads. rewrite Hfind.
    by destruct (of_type k). }
  assert (Hkeys : forall k, k ∈ map fst g -> exists n, n ∈ w /\ k = tk n).
  { intros k Hk. apply list_elem_of_fmap in Hk as ([k' t] & -> & Hin).
    apply Hentries in Hin as [Hne _]. simpl.
    destruct (of_type k') as [|n ns] eqn:E; [done|].
    assert (Hn : In n (of_type k')) by (rewrite E; by left).
    unfold of_type, with_key in Hn. apply filter_In in Hn as [Hn Hk].
    apply String.eqb_eq in Hk. exists n. split; [by apply list_elem_of_In | done]. }
  assert (Hnonempty : w <> [] -> map fst g <> []).
  { intros Hne. destruct w as [|n w'] eqn:E; [done|].
    assert (Hin : (tk n, tally_of (of_type (tk n))) ∈ g).
    { apply Hentries. split; [|done]. unfold of_type, with_key. simpl.
      by rewrite String.eqb_refl. }
    intros Hnil. destruct g; [by apply elem_of_nil in Hin | done]. }
  rewrite Ha2, Ha3. clear Ha2 Ha3.
  repeat match goal with |- _ /\ _ => split end.
  - exact Hentries.
  - unfold g. rewrite (group_by_keys tk s rel Hd). by rewrite Hw.
  - intros Hnil. destruct g as [|[k t] g'] eqn:E; [done|]. exfalso.
    destruct (Hkeys k) as (n & Hn & _); [apply elem_of_cons; by left|].
    rewrite Hnil in Hn. by apply elem_of_nil in Hn.
  - intros Hne. apply Hkeys. apply engaging_fold_member; [by apply Hnonempty | done].
  - intros k.
    destruct (engaging_fold_max g (map fst g) "weather") as (_ & Hmax & _).
    rewrite <- !Hreads. destruct (decide (k ∈ map fst g)) as [Hk|Hk].
    + rewrite Forall_forall in Hmax. by apply Hmax.
    + rewrite (read_of_absent g k Hk). lia.
  - intros Hne.
    destruct (engaging_fold_last g (map fst g) "weather")
      as [[Hr Hall]|(pre & post & Hks & Hall)].
    + exfalso. specialize (Hnonempty Hne).
      destruct (decide ("weather" ∈ map fst g)) as [Hin|Hout].
      * rewrite Forall_forall in Hall. specialize (Hall _ Hin). lia.
      * rewrite (read_of_absent g _ Hout) in Hall.
        destruct (map fst g) as [|k ks]; [done|].
        apply Forall_cons in Hall as [Hk _]. lia.
    + exists pre, post. split; [done|].
      eapply Forall_impl; [exact Hall|]. intros k Hk. simpl in Hk.
      by rewrite <- !Hreads.
Qed.

Lemma most_engaging_witness :
  let s := service_with PermGranted
             [sample_of_type Price "p1" true; sample_of_type Weather "w1" false;
              sample_of_type Price "p2" true; sample_of_type Weather "w2" true;
              sample_of_type General "g1" false] [] in
  let startDate := fun (_ : Timeframe) (now : Z) => (now - 1000)%Z in
  let a := getNotificationAnalytics startDate "farmer1" Week 1500 s in
  mostEngagingType a = "price"
  /\ ("price", {| sent := 2; delivered := 0; read := 2 |}) ∈ byType a
  /\ (exists n, n ∈ window startDate Week 1500 s
                /\ mostEngagingType a = type_string (Notification.type n))
  /\ (exists pre post,
        map fst (byType a) = (pre ++ mostEngagingType a :: post)%list
        /\ Forall (fun k =>
                     read (tally_of (with_key (fun n => type_string (Notification.type n)) k
                                       (window startDate Week 1500 s)))
                     < read (tally_of (with_key (fun n => type_string (Notification.type n))
                                         (mostEngagingType a)
                                         (window startDate Week 1500 s)))) post).
Proof.
  intros s startDate a.
  destruct (most_engaging_type_has_most_reads startDate "farmer1" Week 1500 s)
    as (H1 & _ & _ & H3 & _ & H5).
  split; [by vm_compute|]. split; [|split].
  - apply H1. split; by vm_compute.
  - apply H3. by vm_compute.
  - apply H5. by vm_compute.
Defined.

(** X17: the analytics never count more delivered or read notifications
    than sent ones, nor more sent ones than the store holds; with nothing in
    the window every count and both rates are 0 and there is no group; and
    the user id makes no difference to the result. *)
Theorem analytics_counts_are_bounded (startDate : Timeframe -> Z -> Z)
    (userId userId' : string) (timeframe : Timeframe) (now : Z) (s : Service) :
  let a := getNotificationAnalytics startDate userId timeframe now s in
  totalDelivered a <= totalSent a
  /\ totalRead a <= totalSent a
  /\ totalSent a <= length (refs s)
  /\ (totalSent a = 0 ->
      totalDelivered a = 0 /\ totalRead a = 0
      /\ deliveryRate a = 0%float /\ readRate a = 0%float
      /\ byType a = [] /\ byPriority a = [])
  /\ getNotificationAnalytics startDate userId' timeframe now s = a.
Proof.
  intros a. unfold a. simpl.
  set (rel := relevantNotifications startDate timeframe now s).
  repeat match goal with |- _ /\ _ => split end; try done.
  - apply filter_length_le.
  - apply filter_length_le.
  - apply filter_length_le.
  - intros H0. apply length_zero_iff_nil in H0. rewrite H0. done.
Qed.

(** ** User configuration: update and lookup *)

Lemma config_key_inj (u u' : string) : config_key u = config_key u' -> u = u'.
Proof. unfold config_key. intros H. by simplify_eq/=. Qed.

Section StoredConfig.

Variable reviveConfig : NotificationConfig.t -> NotificationConfig.t.

(** X18: a configuration written with [updateUserConfig] is what
    [getUserConfig] returns for its user from then on, whether or not
    localStorage accepted the write, and that lookup changes nothing; the
    lookup of any other user gives what it gave before; and of two updates
    for one user the later one wins. *)
Theorem config_update_then_get (config config' : NotificationConfig.t)
    (other : string) (c : ConfigStore) :
  let c1 := (updateUserConfig config c).2 in
  getUserConfig reviveConfig (NotificationConfig.userId config) c1 = (Some config, c1)
  /\ (other <> NotificationConfig.userId config ->
      (getUserConfig reviveConfig other c1).1 = (getUserConfig reviveConfig other c).1)
  /\ (NotificationConfig.userId config' = NotificationConfig.userId config ->
      (getUserConfig reviveConfig (NotificationConfig.userId config)
         (updateUserConfig config' c1).2).1 = Some config')
  /\ (updateUserConfig config c).1 = configWritable c.
Proof.
  unfold updateUserConfig, getUserConfig.
  destruct (configWritable c) eqn:Hw; simpl; rewrite ?Hw; simpl;
    rewrite !lookup_insert_eq;
    (repeat match goal with |- _ /\ _ => split end; try done).
  - intros Hne. rewrite !lookup_insert_ne by (try done; by intros ?%config_key_inj).
    by destruct (userConfigs c !! other), (configItems c !! config_key other).
  - intros ->. by rewrite lookup_insert_eq.
  - intros Hne. rewrite !lookup_insert_ne by done.
    by destruct (userConfigs c !! other), (configItems c !! config_key other).
  - intros ->. by rewrite lookup_insert_eq.
Qed.

(** X19: what a restarted service (an empty map over the same localStorage)
    finds for the user of an update: what the stored text of the
    configuration decodes to if the write was accepted, and otherwise only
    what was stored before the update, which is lost.  The first lookup puts
    what it found into the map, and the next one returns the same object
    without reading the storage or changing anything. *)
Theorem config_survives_restart_only_if_stored (config : NotificationConfig.t)
    (c : ConfigStore) (w : bool) :
  let c1 := (updateUserConfig config c).2 in
  let restarted := {| userConfigs := ∅; configItems := configItems c1;
                      configWritable := w |} in
  let r := getUserConfig reviveConfig (NotificationConfig.userId config) restarted in
  r.1 = (if configWritable c then Some (reviveConfig config)
         else reviveConfig <$> configItems c !! config_key (NotificationConfig.userId config))
  /\ userConfigs r.2 !! NotificationConfig.userId config = r.1
  /\ (forall revive', getUserConfig revive' (NotificationConfig.userId config) r.2 = (r.1, r.2))
  /\ configItems r.2 = configItems c1.
Proof.
  unfold updateUserConfig, getUserConfig.
  destruct (configWritable c) eqn:Hw; simpl; rewrite lookup_empty.
  - rewrite lookup_insert_eq. simpl. rewrite lookup_insert_eq. done.
  - destruct (configItems c !! config_key (NotificationConfig.userId config)) eqn:Hi;
      simpl; rewrite ?lookup_insert_eq, ?lookup_empty, ?Hi; done.
Qed.

End StoredConfig.

Lemma config_update_witness :
  let config u hours :=
    NotificationConfig.mk u
      (NotificationConfig.mk_preferences true true false false true true)
      (NotificationConfig.mk_location 0x1.a733333333333p+4%float 0x1.4153d70a3d70ap+6%float
         "Uttar Pradesh" "Kanpur")
      ["Rice"; "Wheat"] ∅ Daily
      (NotificationConfig.mk_quietHours hours "22:00" "06:00") in
  let revive := fun c : NotificationConfig.t => c in
  let c := {| userConfigs := ∅; configItems := ∅; configWritable := false |} in
  let c1 := (updateUserConfig (config "farmer1" true) c).2 in
  getUserConfig revive "farmer1" c1 = (Some (config "farmer1" true), c1)
  /\ (getUserConfig revive "farmer2" c1).1 = None
  /\ (getUserConfig revive "farmer1" (updateUserConfig (config "farmer1" false) c1).2).1
     = Some (config "farmer1" false)
  /\ (updateUserConfig (config "farmer1" true) c).1 = false.
Proof.
  intros config revive c c1.
  destruct (config_update_then_get revive (config "farmer1" true) (config "farmer1" false)
              "farmer2" c) as (H1 & H2 & H3 & H4).
  repeat match goal with |- _ /\ _ => split end.
  - exact H1.
  - etransitivity; [by apply H2|done].
  - by apply H3.
  - exact H4.
Defined.

(** ** Permission *)

Lemma granted_dispatch_shows (l : nat) (now : Z) (s : Service) (n : Notification.t) :
  notificationPermission s = PermGranted ->
  constructorError s = None ->
  objects s !! l = Some n ->
  displayed (sendNotification l now s)
  = (displayed s
     ++ replicate (length (List.filter enabled_push (Notification.deliveryChannels n)))
                  (platform_notification n))%list.
Proof.
  intros Hp He Hn. rewrite (displayed_sendNotification_all l now s n Hn).
  by rewrite flat_map_shown_granted.
Qed.

Lemma silent_dispatch_shows_nothing (l : nat) (now : Z) (s : Service) (n : Notification.t) :
  notificationPermission s <> PermGranted \/ is_Some (constructorError s) ->
  objects s !! l = Some n ->
  displayed (sendNotification l now s) = displayed s.
Proof.
  intros H Hn. rewrite (displayed_sendNotification_all l now s n Hn).
  by rewrite flat_map_shown_silent, app_nil_r.
Qed.

(** X20: [requestPermission] returns true exactly when the browser supports
    notifications and the permission is granted afterwards; a permission
    already granted is kept without asking; an unsupported browser changes
    nothing; the notifications are never touched.  After it returned true, a
    dispatch shows one platform notification per enabled push entry if the
    [Notification] constructor works, and nothing if it throws; after it
    returned false in a browser that supports notifications, a dispatch
    shows nothing. *)
Theorem requestPermission_result (supported : bool) (answer : NotificationPermission)
    (s : Service) :
  let r := requestPermission supported answer s in
  (r.1 = true <-> supported = true /\ notificationPermission r.2 = PermGranted)
  /\ (supported = true -> notificationPermission s = PermGranted -> r = (true, s))
  /\ (supported = false -> r = (false, s))
  /\ set_notificationPermission (notificationPermission s) r.2 = s
  /\ (r.1 = true ->
      forall l n now, objects s !! l = Some n ->
        displayed (sendNotification l now r.2)
        = (displayed s
           ++ match constructorError s with
              | None =>
                  replicate
                    (length (List.filter enabled_push (Notification.deliveryChannels n)))
                    (platform_notification n)
              | Some _ => []
              end)%list)
  /\ (r.1 = false -> supported = true ->
      forall l n now, objects s !! l = Some n ->
        displayed (sendNotification l now r.2) = displayed s).
Proof.
  assert (Hshow : forall s' l n now,
            notificationPermission s' = PermGranted ->
            objects s' !! l = Some n ->
            displayed (sendNotification l now s')
            = (displayed s'
               ++ match constructorError s' with
                  | None =>
                      replicate
                        (length (List.filter enabled_push (Notification.deliveryChannels n)))
                        (platform_notification n)
                  | Some _ => []
                  end)%list).
  { intros s' l n now Hp Hn. destruct (constructorError s') as [msg|] eqn:He.
    - rewrite app_nil_r. apply (silent_dispatch_shows_nothing l now s' n); [|done].
      right. rewrite He. by eexists.
    - by apply granted_dispatch_shows. }
  unfold requestPermission.
  destruct supported; simpl.
  - destruct (notificationPermission s) eqn:Hp; simpl;
      repeat match goal with |- _ /\ _ => split end; try done;
      try (by destruct s; simpl in *; subst).
    + destruct answer; split; try done; by intros [_ ?].
    + intros Ht l n now Hn. destruct answer; try done.
      exact (Hshow (set_notificationPermission PermGranted s) l n now eq_refl Hn).
    + intros Hf _ l n now Hn.
      assert (Ha : answer <> PermGranted) by (by destruct answer).
      exact (silent_dispatch_shows_nothing l now (set_notificationPermission answer s) n
               (or_introl Ha) Hn).
    + intros _ l n now Hn. by apply Hshow.
    + destruct answer; split; try done; by intros [_ ?].
    + intros Ht l n now Hn. destruct answer; try done.
      exact (Hshow (set_notificationPermission PermGranted s) l n now eq_refl Hn).
    + intros Hf _ l n now Hn.
      assert (Ha : answer <> PermGranted) by (by destruct answer).
      exact (silent_dispatch_shows_nothing l now (set_notificationPermission answer s) n
               (or_introl Ha) Hn).
  - repeat match goal with |- _ /\ _ => split end; try done.
    + split; [done | by intros [? _]].
    + by destruct s.
Qed.

Lemma requestPermission_witness :
  let n := sample_notification "n1" None false [new_channel Push; new_channel InApp] in
  let s := service_with PermDefault [] [n] in
  let r := requestPermission true PermGranted s in
  r.1 = true
  /\ notificationPermission r.2 = PermGranted
  /\ requestPermission true PermDenied r.2 = (true, r.2)
  /\ requestPermission false PermGranted s = (false, s)
  /\ (requestPermission true PermDenied s).1 = false
  /\ map pn_tag (displayed (sendNotification 0 2000%Z r.2)) = ["n1"]
  /\ displayed (sendNotification 0 2000%Z (requestPermission true PermDenied s).2) = [].
Proof.
  intros n s r.
  destruct (requestPermission_result true PermGranted s) as (H1 & _ & _ & _ & H5 & _).
  destruct (requestPermission_result true PermDenied r.2) as (_ & H2 & _).
  destruct (requestPermission_result false PermGranted s) as (_ & _ & H3 & _).
  destruct (requestPermission_result true PermDenied s) as (_ & _ & _ & _ & _ & H6).
  repeat match goal with |- _ /\ _ => split end.
  - done.
  - done.
  - by apply H2.
  - by apply H3.
  - done.
  - unfold r. by rewrite (H5 eq_refl 0 n 2000%Z eq_refl).
  - by rewrite (H6 eq_refl eq_refl 0 n 2000%Z eq_refl).
Defined.

(** ** Housekeeping in any order *)

Lemma filter_map_with_isRead (P : Notification.t -> Prop)
    `{!forall n, Decision (P n)} (ns : list Notification.t) :
  (forall n, P (with_isRead true n) <-> P n) ->
  filter P (map (with_isRead true) ns) = map (with_isRead true) (filter P ns).
Proof.
  intros HP. induction ns as [|n ns IH]; [done|]. simpl.
  rewrite !filter_cons. destruct (decide (P n)) as [Hn|Hn].
  - rewrite decide_True by by apply HP. simpl. by rewrite IH.
  - rewrite decide_False by (by rewrite HP). done.
Qed.

(** X21: cleanup, deletion by identifier and marking everything read can be
    done in any order: the store holds the same records afterwards. *)
Theorem housekeeping_commutes (now : Z) (id userId : string) (s : Service) :
  contents (cleanup now (deleteNotification id s))
    = contents (deleteNotification id (cleanup now s))
  /\ contents (cleanup now (markAllAsRead userId s))
     = contents (markAllAsRead userId (cleanup now s))
  /\ contents (deleteNotification id (markAllAsRead userId s))
     = contents (markAllAsRead userId (deleteNotification id s)).
Proof.
  assert (Hdel : forall s0, contents (deleteNotification id s0)
                 = filter (fun n => Notification.id n <> id) (contents s0)).
  { intros s0. rewrite contents_deleteNotification. apply filter_bool_prop. intros n.
    rewrite negb_true_iff. apply String.eqb_neq. }
  assert (Hall : forall s0, contents (markAllAsRead userId s0)
                 = map (with_isRead true) (contents s0))
    by (intros s0; apply contents_markAllAsRead).
  repeat match goal with |- _ /\ _ => split end.
  - rewrite contents_cleanup, !Hdel, contents_cleanup, !list_filter_filter.
    apply list_filter_iff. tauto.
  - rewrite contents_cleanup, !Hall, contents_cleanup.
    by apply filter_map_with_isRead.
  - rewrite !Hdel, !Hall, !Hdel. by apply filter_map_with_isRead.
Qed.

(** ** The seasonal tips of a poll *)

Lemma string_app_inv_head (p x y : string) : (p ++ x = p ++ y)%string -> x = y.
Proof. induction p as [|c p IH]; simpl; [done|]. intros [= H]. by apply IH. Qed.

Lemma tip_id_inj (month week i j : nat) :
  tip_id month week i = tip_id month week j -> i = j.
Proof.
  unfold tip_id. intros H.
  do 5 apply string_app_inv_head in H. by apply (inj pretty) in H.
Qed.

Lemma season_tips_spec (random : nat -> float) (sd : SeasonData) (month week : nat)
    (templates : list TipTemplate) (index calls : nat) (tips : list SeasonalTip.t) :
  exists new,
    season_tips random sd month week templates index calls tips
    = (calls + length templates, (tips ++ new)%list)
    /\ length new <= length templates
    /\ Forall (fun t => SeasonalTip.month t = month /\ SeasonalTip.week t = week
                        /\ exists i, index <= i < index + length templates
                                     /\ SeasonalTip.id t = tip_id month week i) new
    /\ NoDup (map SeasonalTip.id new).
Proof.
  revert index calls tips. induction templates as [|tpl templates IH];
    intros index calls tips; simpl.
  - exists []. rewrite app_nil_r, Nat.add_0_r. repeat split; [done|constructor|constructor].
  - destruct (random calls <? one_tenth)%float.
    + destruct (IH (S index) (S calls)
                  (tips ++ [SeasonalTip.mk (tip_id month week index) (sd_season sd)
                              month week (tt_category tpl) (tt_applicableCrops tpl)
                              (tt_title tpl) (tt_tip tpl) (tt_timing tpl)
                              (tt_importance tpl)])%list)
        as (new & -> & Hl & Hf & Hn).
      eexists (_ :: new). rewrite <- app_assoc. simpl.
      repeat split.
      * f_equal. lia.
      * lia.
      * constructor.
        -- simpl. repeat split. exists index. split; [lia|done].
        -- eapply Forall_impl; [exact Hf|]. intros t (? & ? & i & ? & ?).
           repeat split; try done. exists i. split; [lia|done].
      * simpl. apply NoDup_cons. split; [|done]. intros Hin.
        apply list_elem_of_fmap in Hin as (t & Ht & Hin).
        rewrite Forall_forall in Hf. destruct (Hf t Hin) as (_ & _ & i & Hi & Hid).
        rewrite Hid in Ht. apply tip_id_inj in Ht. lia.
    + destruct (IH (S index) (S calls) tips) as (new & -> & Hl & Hf & Hn).
      exists new. repeat split; try done.
      * f_equal. lia.
      * lia.
      * eapply Forall_impl; [exact Hf|]. intros t (? & ? & i & ? & ?).
        repeat split; try done. exists i. split; [lia|done].
Qed.

(** X22: the seasonal tips of a poll follow the calendar whatever the random
    draws are: none outside June to September and December to February, at
    most two in a poll, each with the month and the week of the date, and
    each with one of the two identifiers the month and the week allow, used
    once.  So polls in the same week produce tips with the same
    identifiers. *)
Theorem seasonal_tips_follow_the_calendar (month day : nat) (random : nat -> float) :
  let tips := generateSeasonalTips month day random in
  let week := (day + 6) / 7 in
  (month ∉ [6; 7; 8; 9; 12; 1; 2] -> tips = [])
  /\ length tips <= 2
  /\ Forall (fun t => SeasonalTip.month t = month /\ SeasonalTip.week t = week
                      /\ (SeasonalTip.id t = tip_id month week 0
                          \/ SeasonalTip.id t = tip_id month week 1)) tips
  /\ NoDup (map SeasonalTip.id tips).
Proof.
  intros tips week. unfold tips, generateSeasonalTips. fold week.
  cbv [fold_left seasonalTipsDatabase sd_months sd_tips fst snd].
  assert (Hin : forall ms, existsb (Nat.eqb month) ms = true -> month ∈ ms).
  { intros ms. induction ms as [|m ms IH]; simpl; [done|].
    intros [E|E]%orb_true_iff; apply elem_of_cons;
      [left; by apply Nat.eqb_eq | right; by apply IH]. }
  assert (Hsub1 : [6; 7; 8; 9] ⊆ [6; 7; 8; 9; 12; 1; 2])
    by (intros x Hx; rewrite !elem_of_cons in Hx; rewrite !elem_of_cons; tauto).
  assert (Hsub2 : [12; 1; 2] ⊆ [6; 7; 8; 9; 12; 1; 2])
    by (intros x Hx; rewrite !elem_of_cons in Hx; rewrite !elem_of_cons; tauto).
  destruct (existsb (Nat.eqb month) [6; 7; 8; 9]) eqn:E1.
  - assert (E2 : existsb (Nat.eqb month) [12; 1; 2] = false).
    { apply not_true_is_false. intros E2. apply Hin in E1. apply Hin in E2.
      repeat (apply elem_of_cons in E1 as [E1|E1]);
        try (by apply elem_of_nil in E1); subst month;
        repeat (apply elem_of_cons in E2 as [E2|E2]);
        try discriminate E2; by apply elem_of_nil in E2. }
    rewrite E2.
    match goal with |- context [season_tips ?r ?sd ?m ?w ?ts ?i ?c ?acc] =>
      destruct (season_tips_spec r sd m w ts i c acc) as (new & -> & Hl & Hf & Hn) end.
    simpl in *. repeat split; try done.
    + intros Hm. exfalso. by apply Hm, Hsub1, Hin.
    + eapply Forall_impl; [exact Hf|]. intros t (? & ? & i & Hi & Hid).
      repeat split; try done. assert (i = 0 \/ i = 1) as [->| ->] by lia; tauto.
  - destruct (existsb (Nat.eqb month) [12; 1; 2]) eqn:E2.
    + match goal with |- context [season_tips ?r ?sd ?m ?w ?ts ?i ?c ?acc] =>
        destruct (season_tips_spec r sd m w ts i c acc) as (new & -> & Hl & Hf & Hn) end.
      simpl in *. repeat split; try done.
      * intros Hm. exfalso. by apply Hm, Hsub2, Hin.
      * lia.
      * eapply Forall_impl; [exact Hf|]. intros t (? & ? & i & Hi & Hid).
        repeat split; try done. assert (i = 0) as -> by lia. tauto.
    + simpl. repeat split; try done; [lia | apply NoDup_nil_2].
Qed.

Lemma seasonal_tips_witness :
  generateSeasonalTips 3 15 (fun _ => 0%float) = []
  /\ map SeasonalTip.id (generateSeasonalTips 7 15 (fun _ => 0%float))
     = ["tip_7_3_0"; "tip_7_3_1"]
  /\ map SeasonalTip.id
       (generateSeasonalTips 7 20
          (fun k => match k with 0 => 0.5%float | _ => 0%float end))
     = ["tip_7_3_1"].
Proof.
  destruct (seasonal_tips_follow_the_calendar 3 15 (fun _ => 0%float)) as (H & _).
  split.
  - apply H. intros Hin. repeat (apply elem_of_cons in Hin as [Hin|Hin]; [discriminate Hin|]).
    by apply elem_of_nil in Hin.
  - by vm_compute.
Defined.

(** ** Browser name *)

Lemma substring_app_middle (pre part post : string) :
  String.substring (String.length pre) (String.length part) (pre ++ part ++ post) = part.
Proof.
  induction pre as [|c pre IH]; simpl; [|exact IH].
  clear. induction part as [|c part IH]; simpl.
  - by destruct post.
  - f_equal. exact IH.
Qed.

Lemma includes_app (pre part post : string) :
  part <> "" -> includes (pre ++ part ++ post) part = true.
Proof.
  intros Hne. unfold includes.
  destruct (String.index 0 part (pre ++ part ++ post)) eqn:E; [done|].
  exfalso.
  apply (String.index_correct3 0 (String.length pre) part (pre ++ part ++ post) E Hne);
    [lia | apply substring_app_middle].
Qed.

Lemma substring_prefix (part text : string) :
  String.substring 0 (String.length part) text = part ->
  exists post, text = part ++ post.
Proof.
  revert text. induction part as [|c part IH]; intros text; simpl.
  - intros _. by exists text.
  - destruct text as [|c' text]; [done|]. intros H. injection H as -> H.
    destruct (IH text H) as [post ->]. by exists post.
Qed.

Lemma substring_occurs (m : nat) (part text : string) :
  String.substring m (String.length part) text = part -> occurs part text.
Proof.
  revert text. induction m as [|m IH]; intros text H.
  - destruct (substring_prefix part text H) as [post ->]. by exists "", post.
  - destruct text as [|c text].
    + simpl in H. subst part. by exists "", "".
    + simpl in H. destruct (IH text H) as (pre & post & ->).
      by exists (String c pre), post.
Qed.

Lemma includes_occurs (text part : string) :
  part <> "" -> includes text part = true <-> occurs part text.
Proof.
  intros Hne. split.
  - unfold includes. destruct (String.index 0 part text) as [m|] eqn:E; [|done].
    intros _. apply (substring_occurs m). by apply (String.index_correct1 0 m part text).
  - intros (pre & post & ->). by apply includes_app.
Qed.

(** X23: the browser name is decided by the first of "Chrome", "Firefox",
    "Safari", "Edge" that occurs in the user agent, in that order: it is
    "Chrome" if Chrome occurs in it, else "Firefox" if Firefox occurs, else
    "Safari" if Safari occurs, else "Edge" if Edge occurs, and "Unknown" if
    none does. *)
Theorem getBrowserName_takes_the_first_match (userAgent : string) :
  let named part := occurs part userAgent in
  (named "Chrome" -> getBrowserName userAgent = "Chrome")
  /\ (~ named "Chrome" -> named "Firefox" -> getBrowserName userAgent = "Firefox")
  /\ (~ named "Chrome" -> ~ named "Firefox" -> named "Safari" ->
      getBrowserName userAgent = "Safari")
  /\ (~ named "Chrome" -> ~ named "Firefox" -> ~ named "Safari" -> named "Edge" ->
      getBrowserName userAgent = "Edge")
  /\ (~ named "Chrome" -> ~ named "Firefox" -> ~ named "Safari" -> ~ named "Edge" ->
      getBrowserName userAgent = "Unknown").
Proof.
  intros named. unfold named, getBrowserName.
  pose proof (includes_occurs userAgent "Chrome" ltac:(done)) as HC.
  pose proof (includes_occurs userAgent "Firefox" ltac:(done)) as HF.
  pose proof (includes_occurs userAgent "Safari" ltac:(done)) as HS.
  pose proof (includes_occurs userAgent "Edge" ltac:(done)) as HE.
  destruct (includes userAgent "Chrome"), (includes userAgent "Firefox"),
    (includes userAgent "Safari"), (includes userAgent "Edge");
    repeat match goal with |- _ /\ _ => split end; intros; try done;
    repeat match goal with
           | H : true = true <-> _ |- _ => apply proj1 in H; specialize (H eq_refl)
           | H : false = true <-> _ |- _ => apply proj2 in H
           end;
    try contradiction;
    repeat match goal with
           | H : occurs ?p ?t -> false = true, H' : occurs ?p ?t |- _ =>
               discriminate (H H')
           end.
Qed.

Lemma getBrowserName_witness :
  let edge := "Mozilla/5.0 (Windows NT 10.0; Win64; x64) AppleWebKit/537.36 (KHTML, like Gecko) Chrome/64.0.3282.140 Safari/537.36 Edge/17.17134" in
  let firefox := "Mozilla/5.0 (X11; Linux x86_64; rv:128.0) Gecko/20100101 Firefox/128.0" in
  let safari := "Mozilla/5.0 (Macintosh; Intel Mac OS X 10_15_7) AppleWebKit/605.1.15 (KHTML, like Gecko) Version/17.4 Safari/605.1.15" in
  getBrowserName edge = "Chrome"
  /\ getBrowserName firefox = "Firefox"
  /\ getBrowserName safari = "Safari"
  /\ getBrowserName "Edge/17.17134" = "Edge"
  /\ getBrowserName "curl/8.5.0" = "Unknown".
Proof.
  intros edge firefox safari.
  assert (Hno : forall part text,
            part <> "" -> includes text part = false -> ~ occurs part text).
  { intros part text Hne Hf Ho. apply (includes_occurs text part Hne) in Ho. congruence. }
  assert (Hyes : forall part text,
            part <> "" -> includes text part = true -> occurs part text).
  { intros part text Hne. by apply includes_occurs. }
  destruct (getBrowserName_takes_the_first_match edge) as (H1 & _).
  destruct (getBrowserName_takes_the_first_match firefox) as (_ & H2 & _).
  destruct (getBrowserName_takes_the_first_match safari) as (_ & _ & H3 & _).
  destruct (getBrowserName_takes_the_first_match "Edge/17.17134") as (_ & _ & _ & H4 & _).
  destruct (getBrowserName_takes_the_first_match "curl/8.5.0") as (_ & _ & _ & _ & H5).
  repeat match goal with |- _ /\ _ => split end.
  - apply H1. by apply Hyes.
  - apply H2; [by apply Hno | by apply Hyes].
  - apply H3; [by apply Hno | by apply Hno | by apply Hyes].
  - apply H4; [by apply Hno | by apply Hno | by apply Hno | by apply Hyes].
  - apply H5; by apply Hno.
Defined.
